(** * linux_gpio: the sysfs GPIO wrapper of [gpio.c], embedded and verified

    [gpio.c] is a sequence of system calls per operation: format a path,
    [access] it, [open] a file, [read] or [write] once, [close].  The
    embedding keeps that shape.  The kernel is an interface (class
    [Kernel]) whose five calls answer with the [int] the C code stores;
    every call is logged with its arguments and its answer, so that the
    theorems speak about what each operation asked of the kernel, in which
    order, and what it made of the answers. *)

From Stdlib Require Import ZArith String Ascii List Lia.
From stdpp Require Import gmap strings.
Import ListNotations.
Local Open Scope Z_scope.

(** ** Constants *)

(** [gpio.c]: [#define SYS_GPIO_DIR "/sys/class/gpio"] *)
Definition SYS_GPIO_DIR : string := "/sys/class/gpio".

(** [gpio.c]: [#define CMD_BUF_MAX_LEN 60] *)
Definition CMD_BUF_MAX_LEN : nat := 60.

(** [<unistd.h>] and [<fcntl.h>] of Linux (asm-generic values). *)
Definition F_OK : Z := 0.
Definition O_RDONLY : Z := 0.
Definition O_WRONLY : Z := 1.
Definition O_NONBLOCK : Z := 2048.
Definition O_ACCMODE : Z := 3.

(** [gpio.h]: the three enumerations.  A C enumeration is an integer type,
    and every [switch] of [gpio.c] has a [default] branch, so a value is a
    [Z] and the enumerators are constants. *)
Definition E_GPIO_IN : Z := 0.
Definition E_GPIO_OUT : Z := 1.

Definition E_GPIO_LOW : Z := 0.
Definition E_GPIO_HIGH : Z := 1.

Definition E_GPIO_NONE : Z := 0.
Definition E_GPIO_RISING : Z := 1.
Definition E_GPIO_FALLING : Z := 2.
Definition E_GPIO_BOTH : Z := 3.

(** [uint16_t gpio_num] *)
Definition uint16 (n : Z) : Prop := 0 <= n < 65536.

(** ** Formatting *)

Module Fmt.

Definition digit (d : Z) : ascii := ascii_of_nat (48 + Z.to_nat d).

(** The digits of a nonnegative number, most significant first, in front
    of [acc].  [fuel] bounds the number of further digits. *)
Fixpoint utoa (fuel : nat) (n : Z) (acc : string) : string :=
  let acc' := String (digit (n mod 10)) acc in
  match fuel with
  | O => acc'
  | S f => if n <? 10 then acc' else utoa f (n / 10) acc'
  end.

(** [printf]'s [%d] on an [int]: at most ten digits. *)
Definition d (n : Z) : string :=
  if n <? 0 then String "-" (utoa 9 (- n) "") else utoa 9 n "".

(** [strlen] *)
Definition strlen (s : string) : Z := Z.of_nat (String.length s).

(** [snprintf(buf, size, ...)] where the format expands to [s]: the buffer
    receives at most [size - 1] characters of [s], and the result is the
    length of [s] itself. *)
Definition snprintf (size : nat) (s : string) : string * Z :=
  (substring 0 (size - 1) s, strlen s).

(** The expansions of the format strings of [gpio.c]. *)
Definition gpio_fmt (dir : string) (n : Z) : string :=
  dir +:+ "/gpio" +:+ d n.                       (* "%s/gpio%d" *)
Definition export_fmt (dir : string) : string :=
  dir +:+ "/export".                             (* "%s/export" *)
Definition unexport_fmt (dir : string) : string :=
  dir +:+ "/unexport".                           (* "%s/unexport" *)
Definition direction_fmt (dir : string) (n : Z) : string :=
  dir +:+ "/gpio" +:+ d n +:+ "/direction".      (* "%s/gpio%d/direction" *)
Definition value_fmt (dir : string) (n : Z) : string :=
  dir +:+ "/gpio" +:+ d n +:+ "/value".          (* "%s/gpio%d/value" *)
Definition edge_fmt (dir : string) (n : Z) : string :=
  dir +:+ "/gpio" +:+ d n +:+ "/edge".           (* "%s/gpio%d/edge" *)

End Fmt.

(** The content of [cmd_buf] after each [snprintf] of [gpio.c]. *)
Definition gpio_path (n : Z) : string :=
  fst (Fmt.snprintf CMD_BUF_MAX_LEN (Fmt.gpio_fmt SYS_GPIO_DIR n)).
Definition export_path : string :=
  fst (Fmt.snprintf CMD_BUF_MAX_LEN (Fmt.export_fmt SYS_GPIO_DIR)).
Definition unexport_path : string :=
  fst (Fmt.snprintf CMD_BUF_MAX_LEN (Fmt.unexport_fmt SYS_GPIO_DIR)).
Definition direction_path (n : Z) : string :=
  fst (Fmt.snprintf CMD_BUF_MAX_LEN (Fmt.direction_fmt SYS_GPIO_DIR n)).
Definition value_path (n : Z) : string :=
  fst (Fmt.snprintf CMD_BUF_MAX_LEN (Fmt.value_fmt SYS_GPIO_DIR n)).
Definition edge_path (n : Z) : string :=
  fst (Fmt.snprintf CMD_BUF_MAX_LEN (Fmt.edge_fmt SYS_GPIO_DIR n)).

(** ** The kernel interface and the log of calls *)

(** One entry per system call: its arguments and what came back. *)
Inductive event : Type :=
| Access (path : string) (mode : Z) (ret : Z)
| Open (path : string) (flags : Z) (ret : Z)
| Write (fd : Z) (buf : string) (count : Z) (ret : Z)
| Read (fd : Z) (count : Z) (ret : Z) (got : string)
| Close (fd : Z) (ret : Z).

(** The five calls [gpio.c] makes.  [W] is the state of the kernel side
    (the sysfs tree, the descriptor table); each call answers with the
    [int] the code stores in [ret] or [fd], [sys_read] also with the bytes
    it has for the caller. *)
Class Kernel (W : Type) : Type := {
  sys_access : string -> Z -> W -> Z * W;
  sys_open : string -> Z -> W -> Z * W;
  sys_write : Z -> string -> Z -> W -> Z * W;
  sys_read : Z -> Z -> W -> Z * string * W;
  sys_close : Z -> W -> Z * W
}.

(** The program state: the kernel side, the log, and the memory the output
    pointer of [gpio_get_value] points into (addresses and [int] cells). *)
Record state (W : Type) : Type := State {
  world : W;
  trace : list event;
  heap : gmap Z Z
}.
Arguments State {W} _ _ _.
Arguments world {W} _.
Arguments trace {W} _.
Arguments heap {W} _.

Definition NULL : Z := 0.

(** [log s w evs]: [s] after the kernel moved to [w] and [evs] happened. *)
Definition log {W} (s : state W) (w : W) (evs : list event) : state W :=
  State w (trace s ++ evs) (heap s).

(** [store s p v]: [*p = v]. *)
Definition store {W} (s : state W) (p v : Z) : state W :=
  State (world s) (trace s) (<[p := v]> (heap s)).

(** ** A state monad for the sequencing of calls *)

Definition M (W A : Type) : Type := state W -> A * state W.

Definition return_ {W A} (a : A) : M W A := fun s => (a, s).

Definition bind {W A B} (m : M W A) (k : A -> M W B) : M W B :=
  fun s => let (a, s') := m s in k a s'.

Declare Scope gpio_scope.
Delimit Scope gpio_scope with gpio.
Notation "x <- m ;; k" := (bind m (fun x => k))
  (at level 100, m at next level, right associativity) : gpio_scope.
Notation "m ;; k" := (bind m (fun _ => k))
  (at level 100, right associativity) : gpio_scope.
Local Open Scope gpio_scope.

Section Calls.
Context {W : Type} `{Kernel W}.

Definition access (path : string) (mode : Z) : M W Z := fun s =>
  let (r, w) := sys_access path mode (world s) in
  (r, log s w [Access path mode r]).

Definition open (path : string) (flags : Z) : M W Z := fun s =>
  let (r, w) := sys_open path flags (world s) in
  (r, log s w [Open path flags r]).

Definition write (fd : Z) (buf : string) (count : Z) : M W Z := fun s =>
  let (r, w) := sys_write fd buf count (world s) in
  (r, log s w [Write fd buf count r]).

(** The bytes a [read] of [count] bytes that answered [r] has put into the
    caller's buffer: the first [r] the kernel had, none when [r <= 0]. *)
Definition received (r count : Z) (data : string) : string :=
  if 0 <? r then substring 0 (Z.to_nat (Z.min r count)) data else "".

(** [read(fd, &ch, 1)] and its like on a one-byte buffer holding [ch]:
    the answer and the buffer afterwards. *)
Definition read (fd : Z) (ch : ascii) (count : Z) : M W (Z * ascii) :=
  fun s =>
    let '(r, data, w) := sys_read fd count (world s) in
    let got := received r count data in
    let ch' := match got with String c _ => c | EmptyString => ch end in
    ((r, ch'), log s w [Read fd count r got]).

Definition close (fd : Z) : M W Z := fun s =>
  let (r, w) := sys_close fd (world s) in
  (r, log s w [Close fd r]).

(** [*value = v] *)
Definition assign (p v : Z) : M W unit := fun s => (tt, store s p v).

End Calls.

(** ** The operations of [gpio.c]

    Statement by statement.  An early [return] is the [then] branch of a
    conditional whose [else] branch is the rest of the function.  The
    statements that follow a [switch] are written out after each [case]
    that leaves it by [break]; its [default] branch returns.  [cmd_buf] is
    cleared before each [snprintf], so it holds what that [snprintf] wrote;
    the local [ret], [fd], [len], [cmd_buf] and [ch] keep their names. *)

Section Operations.
Context {W : Type} `{Kernel W}.

(** [bool gpio_export(const uint16_t gpio_num)] *)
Definition gpio_export (gpio_num : Z) : M W bool :=
  let cmd_buf :=
    fst (Fmt.snprintf CMD_BUF_MAX_LEN (Fmt.gpio_fmt SYS_GPIO_DIR gpio_num)) in
  ret <- access cmd_buf F_OK ;;
  if 0 =? ret then return_ true else
  let cmd_buf :=
    fst (Fmt.snprintf CMD_BUF_MAX_LEN (Fmt.export_fmt SYS_GPIO_DIR)) in
  fd <- open cmd_buf O_WRONLY ;;
  if fd <? 0 then return_ false else
  let '(cmd_buf, len) := Fmt.snprintf CMD_BUF_MAX_LEN (Fmt.d gpio_num) in
  ret <- write fd cmd_buf len ;;
  if negb (len =? ret) then (close fd ;; return_ false) else
  ret <- close fd ;;
  if negb (0 =? ret) then return_ false else
  return_ true.

(** [bool gpio_unexport(const uint16_t gpio_num)] *)
Definition gpio_unexport (gpio_num : Z) : M W bool :=
  let cmd_buf :=
    fst (Fmt.snprintf CMD_BUF_MAX_LEN (Fmt.gpio_fmt SYS_GPIO_DIR gpio_num)) in
  ret <- access cmd_buf F_OK ;;
  if -1 =? ret then return_ true else
  let cmd_buf :=
    fst (Fmt.snprintf CMD_BUF_MAX_LEN (Fmt.unexport_fmt SYS_GPIO_DIR)) in
  fd <- open cmd_buf O_WRONLY ;;
  if fd <? 0 then return_ false else
  let '(cmd_buf, len) := Fmt.snprintf CMD_BUF_MAX_LEN (Fmt.d gpio_num) in
  ret <- write fd cmd_buf len ;;
  if negb (len =? ret) then (close fd ;; return_ false) else
  ret <- close fd ;;
  if negb (0 =? ret) then return_ false else
  return_ true.

(** [bool gpio_set_direction(const uint16_t gpio_num,
                             const gpio_direction_e direction)] *)
Definition gpio_set_direction (gpio_num direction : Z) : M W bool :=
  let cmd_buf :=
    fst (Fmt.snprintf CMD_BUF_MAX_LEN (Fmt.gpio_fmt SYS_GPIO_DIR gpio_num)) in
  ret <- access cmd_buf F_OK ;;
  if -1 =? ret then return_ false else
  let cmd_buf :=
    fst (Fmt.snprintf CMD_BUF_MAX_LEN
           (Fmt.direction_fmt SYS_GPIO_DIR gpio_num)) in
  fd <- open cmd_buf O_WRONLY ;;
  if fd <? 0 then return_ false else
  (* switch (direction) *)
  if direction =? E_GPIO_IN then
    ret <- write fd "in" (Fmt.strlen "in") ;;
    if -1 =? ret then (close fd ;; return_ false) else
    ret <- close fd ;;
    if -1 =? ret then return_ false else
    return_ true
  else if direction =? E_GPIO_OUT then
    ret <- write fd "out" (Fmt.strlen "out") ;;
    if -1 =? ret then (close fd ;; return_ false) else
    ret <- close fd ;;
    if -1 =? ret then return_ false else
    return_ true
  else (* default *)
    return_ false.

(** [bool gpio_set_value(const uint16_t gpio_num, const gpio_value_e value)] *)
Definition gpio_set_value (gpio_num value : Z) : M W bool :=
  let cmd_buf :=
    fst (Fmt.snprintf CMD_BUF_MAX_LEN (Fmt.gpio_fmt SYS_GPIO_DIR gpio_num)) in
  ret <- access cmd_buf F_OK ;;
  if -1 =? ret then return_ false else
  let cmd_buf :=
    fst (Fmt.snprintf CMD_BUF_MAX_LEN (Fmt.value_fmt SYS_GPIO_DIR gpio_num)) in
  fd <- open cmd_buf O_WRONLY ;;
  if fd <? 0 then return_ false else
  (* switch (value) *)
  if value =? E_GPIO_LOW then
    ret <- write fd "0" (Fmt.strlen "0") ;;
    if -1 =? ret then (close fd ;; return_ false) else
    ret <- close fd ;;
    if -1 =? ret then return_ false else
    return_ true
  else if value =? E_GPIO_HIGH then
    ret <- write fd "1" (Fmt.strlen "1") ;;
    if -1 =? ret then (close fd ;; return_ false) else
    ret <- close fd ;;
    if -1 =? ret then return_ false else
    return_ true
  else (* default *)
    return_ false.

(** [bool gpio_get_value(gpio_value_e *value, const uint16_t gpio_num)];
    [value] is the address the result goes to. *)
Definition gpio_get_value (value gpio_num : Z) : M W bool :=
  let ch := "000"%char in
  if value =? NULL then return_ false else
  let cmd_buf :=
    fst (Fmt.snprintf CMD_BUF_MAX_LEN (Fmt.gpio_fmt SYS_GPIO_DIR gpio_num)) in
  ret <- access cmd_buf F_OK ;;
  if -1 =? ret then return_ false else
  let cmd_buf :=
    fst (Fmt.snprintf CMD_BUF_MAX_LEN (Fmt.value_fmt SYS_GPIO_DIR gpio_num)) in
  fd <- open cmd_buf O_RDONLY ;;
  if fd <? 0 then return_ false else
  rd <- read fd ch 1 ;;
  let '(ret, ch) := rd in
  if -1 =? ret then (close fd ;; return_ false) else
  (* switch (ch) *)
  if Ascii.eqb ch "0" then
    assign value E_GPIO_LOW ;;
    ret <- close fd ;;
    if -1 =? ret then return_ false else
    return_ true
  else if Ascii.eqb ch "1" then
    assign value E_GPIO_HIGH ;;
    ret <- close fd ;;
    if -1 =? ret then return_ false else
    return_ true
  else (* default *)
    (close fd ;; return_ false).

(** [bool gpio_set_edge(const uint16_t gpio_num, const gpio_edge_e edge)] *)
Definition gpio_set_edge (gpio_num edge : Z) : M W bool :=
  let cmd_buf :=
    fst (Fmt.snprintf CMD_BUF_MAX_LEN (Fmt.gpio_fmt SYS_GPIO_DIR gpio_num)) in
  ret <- access cmd_buf F_OK ;;
  if -1 =? ret then return_ false else
  let cmd_buf :=
    fst (Fmt.snprintf CMD_BUF_MAX_LEN (Fmt.edge_fmt SYS_GPIO_DIR gpio_num)) in
  fd <- open cmd_buf O_WRONLY ;;
  if fd <? 0 then return_ false else
  (* switch (edge) *)
  if edge =? E_GPIO_NONE then
    ret <- write fd "none" (Fmt.strlen "none") ;;
    if -1 =? ret then (close fd ;; return_ false) else
    ret <- close fd ;;
    if -1 =? ret then return_ false else
    return_ true
  else if edge =? E_GPIO_RISING then
    ret <- write fd "rising" (Fmt.strlen "rising") ;;
    if -1 =? ret then (close fd ;; return_ false) else
    ret <- close fd ;;
    if -1 =? ret then return_ false else
    return_ true
  else if edge =? E_GPIO_FALLING then
    ret <- write fd "falling" (Fmt.strlen "falling") ;;
    if -1 =? ret then (close fd ;; return_ false) else
    ret <- close fd ;;
    if -1 =? ret then return_ false else
    return_ true
  else if edge =? E_GPIO_BOTH then
    ret <- write fd "both" (Fmt.strlen "both") ;;
    if -1 =? ret then (close fd ;; return_ false) else
    ret <- close fd ;;
    if -1 =? ret then return_ false else
    return_ true
  else (* default *)
    return_ false.

(** [int gpio_open(const uint16_t gpio_num)] *)
Definition gpio_open (gpio_num : Z) : M W Z :=
  let cmd_buf :=
    fst (Fmt.snprintf CMD_BUF_MAX_LEN (Fmt.value_fmt SYS_GPIO_DIR gpio_num)) in
  fd <- open cmd_buf (Z.lor O_RDONLY O_NONBLOCK) ;;
  if fd <? 0 then return_ (-1) else
  return_ fd.

(** [bool gpio_close(const int fd)] *)
Definition gpio_close (fd : Z) : M W bool :=
  r <- close fd ;;
  if 0 =? r then return_ true else
  return_ false.

End Operations.

(** ** Two kernels to run the operations on *)

(** A kernel that answers from a script: one reply per call, in order,
    whatever the call; [-1] once the script is used up.  It can play any
    sequence of answers, so any path through an operation. *)
Module Script.

Record reply : Type := Reply { r_ret : Z; r_data : string }.

Definition t : Type := list reply.

Definition next (w : t) : Z * string * t :=
  match w with
  | [] => (-1, "", [])
  | Reply r data :: w' => (r, data, w')
  end.

Definition answer (w : t) : Z * t :=
  let '(r, _, w') := next w in (r, w').

#[global] Instance kernel : Kernel t := {
  sys_access _ _ := answer;
  sys_open _ _ := answer;
  sys_write _ _ _ := answer;
  sys_read _ _ := next;
  sys_close _ := answer
}.

(** A reply without data. *)
Definition R (r : Z) : reply := Reply r "".

Definition init (w : t) (h : gmap Z Z) : state t := State w [] h.

End Script.

(** A small sysfs tree in memory: directories, files with their content,
    and a descriptor table.  Paths that are not there cannot be opened,
    descriptors that are not open cannot be used. *)
Module MemFs.

Record t : Type := Make {
  dirs : gset string;
  files : gmap string string;
  fds : gmap Z string;
  next_fd : Z
}.

Definition present (w : t) (path : string) : bool :=
  bool_decide (path ∈ dirs w) || bool_decide (is_Some (files w !! path)).

Definition fs_access (path : string) (mode : Z) (w : t) : Z * t :=
  (if present w path then 0 else -1, w).

Definition fs_open (path : string) (flags : Z) (w : t) : Z * t :=
  match files w !! path with
  | Some _ =>
      (next_fd w,
       Make (dirs w) (files w) (<[next_fd w := path]> (fds w)) (next_fd w + 1))
  | None => (-1, w)
  end.

Definition fs_write (fd : Z) (buf : string) (count : Z) (w : t) : Z * t :=
  match fds w !! fd with
  | Some path =>
      (count,
       Make (dirs w) (<[path := substring 0 (Z.to_nat count) buf]> (files w))
            (fds w) (next_fd w))
  | None => (-1, w)
  end.

Definition fs_read (fd : Z) (count : Z) (w : t) : Z * string * t :=
  match fds w !! fd with
  | Some path =>
      let data := substring 0 (Z.to_nat count) (default "" (files w !! path)) in
      (Fmt.strlen data, data, w)
  | None => (-1, "", w)
  end.

Definition fs_close (fd : Z) (w : t) : Z * t :=
  match fds w !! fd with
  | Some _ => (0, Make (dirs w) (files w) (delete fd (fds w)) (next_fd w))
  | None => (-1, w)
  end.

#[global] Instance kernel : Kernel t := {
  sys_access := fs_access;
  sys_open := fs_open;
  sys_write := fs_write;
  sys_read := fs_read;
  sys_close := fs_close
}.

(** The tree with the pins of [pins] exported, each reading [level]. *)
Definition pin_files (n : Z) (level : string) : list (string * string) :=
  [(direction_path n, "in"); (value_path n, level); (edge_path n, "none")].

Definition board (pins : list (Z * string)) : t :=
  Make (list_to_set (SYS_GPIO_DIR :: map (fun p => gpio_path (fst p)) pins))
       (list_to_map
          ((export_path, "") :: (unexport_path, "")
             :: flat_map (fun p => pin_files (fst p) (snd p)) pins))
       ∅ 3.

Definition init (w : t) (h : gmap Z Z) : state t := State w [] h.

End MemFs.

(** ** The vocabulary of the specification *)

(** The sysfs files by name, as the filesystem contract lists them:
    [export], [unexport], [gpioN], [gpioN/direction], [gpioN/value] and
    [gpioN/edge] under [/sys/class/gpio], [N] the pin number in decimal. *)
Module Sysfs.

Definition export : string := "/sys/class/gpio/export".
Definition unexport : string := "/sys/class/gpio/unexport".
Definition pin_dir (n : Z) : string := "/sys/class/gpio/gpio" +:+ Fmt.d n.
Definition direction (n : Z) : string := pin_dir n +:+ "/direction".
Definition value (n : Z) : string := pin_dir n +:+ "/value".
Definition edge (n : Z) : string := pin_dir n +:+ "/edge".

(** What is written for each enumerator: ["in"] and ["out"] to
    [gpioN/direction], ["0"] and ["1"] to [gpioN/value], ["none"],
    ["rising"], ["falling"] and ["both"] to [gpioN/edge].  No text for a
    value that is no enumerator. *)
Definition direction_text (direction : Z) : option string :=
  if direction =? E_GPIO_IN then Some "in"
  else if direction =? E_GPIO_OUT then Some "out"
  else None.

Definition level_text (level : Z) : option string :=
  if level =? E_GPIO_LOW then Some "0"
  else if level =? E_GPIO_HIGH then Some "1"
  else None.

Definition edge_text (edge : Z) : option string :=
  if edge =? E_GPIO_NONE then Some "none"
  else if edge =? E_GPIO_RISING then Some "rising"
  else if edge =? E_GPIO_FALLING then Some "falling"
  else if edge =? E_GPIO_BOTH then Some "both"
  else None.

(** The level a read of [gpioN/value] stands for: ['0'] is LOW, ['1'] is
    HIGH, anything else (nothing read, too) is no level. *)
Definition level_of (got : string) : option Z :=
  match got with
  | String c _ =>
      if Ascii.eqb c "0" then Some E_GPIO_LOW
      else if Ascii.eqb c "1" then Some E_GPIO_HIGH
      else None
  | EmptyString => None
  end.

(** The number a string of decimal digits stands for. *)
Definition decimal (s : string) : Z :=
  fold_left (fun v c => 10 * v + (Z.of_nat (nat_of_ascii c) - 48))
            (list_ascii_of_string s) 0.

End Sysfs.

(** The descriptors a log leaves open: those a successful [open] returned
    and no later [close] was called on, on top of [acc]. *)
Fixpoint held_from (acc : list Z) (tr : list event) : list Z :=
  match tr with
  | [] => acc
  | Open _ _ fd :: tr' => held_from (if fd <? 0 then acc else acc ++ [fd]) tr'
  | Close fd _ :: tr' => held_from (List.remove Z.eq_dec fd acc) tr'
  | _ :: tr' => held_from acc tr'
  end.

Definition held (tr : list event) : list Z := held_from [] tr.

(** The events an operation added to the log of [s]. *)
Definition added {W} (s s' : state W) : list event :=
  skipn (length (trace s)) (trace s').

(** A formatted string fits the command buffer: it is shorter than the
    buffer, and [snprintf] delivers it whole. *)
Definition fits (s : string) : Prop :=
  (String.length s < CMD_BUF_MAX_LEN)%nat
  /\ Fmt.snprintf CMD_BUF_MAX_LEN s = (s, Fmt.strlen s).

(** The three setters applied to pin [pin], each with the file of the pin
    it writes and the text of its argument, if that is an enumerator. *)
Inductive setter {W} `{Kernel W} (pin : Z) :
  M W bool -> string -> option string -> Prop :=
| set_direction (direction : Z) :
    setter pin (gpio_set_direction pin direction)
           (Sysfs.direction pin) (Sysfs.direction_text direction)
| set_value (value : Z) :
    setter pin (gpio_set_value pin value)
           (Sysfs.value pin) (Sysfs.level_text value)
| set_edge (edge : Z) :
    setter pin (gpio_set_edge pin edge)
           (Sysfs.edge pin) (Sysfs.edge_text edge).

(** The three setters share one shape.  [op] is a setter applied to pin
    [pin], [path] the file of the pin it writes, [text] the text of its
    enumerator, if it is one; [a] and [w1] are the answer to the [access]
    and the kernel after it.  The shape says what the setter returns and
    leaves behind for each way the further calls can answer. *)
Definition setter_run {W} `{Kernel W} (pin : Z) (s : state W)
    (op : M W bool) (path : string) (text : option string)
    (a : Z) (w1 : W) : Prop :=
  (a = -1 ->
   op s = (false, log s w1 [Access (Sysfs.pin_dir pin) F_OK a]))
  /\ (a <> -1 ->
      forall (fd : Z) (w2 : W),
        sys_open path O_WRONLY w1 = (fd, w2) ->
        (fd < 0 ->
         op s = (false, log s w2 [Access (Sysfs.pin_dir pin) F_OK a;
                                  Open path O_WRONLY fd]))
        /\ (0 <= fd ->
            (text = None ->
             op s = (false, log s w2 [Access (Sysfs.pin_dir pin) F_OK a;
                                      Open path O_WRONLY fd]))
            /\ (forall (lit : string) (r : Z) (w3 : W) (c : Z) (w4 : W),
                  text = Some lit ->
                  sys_write fd lit (Fmt.strlen lit) w2 = (r, w3) ->
                  sys_close fd w3 = (c, w4) ->
                  op s
                  = (negb (r =? -1) && negb (c =? -1),
                     log s w4 [Access (Sysfs.pin_dir pin) F_OK a;
                               Open path O_WRONLY fd;
                               Write fd lit (Fmt.strlen lit) r;
                               Close fd c])))).

(** ** Reading a log *)

Definition is_write (e : event) : bool :=
  match e with Write _ _ _ _ => true | _ => false end.

Definition is_read (e : event) : bool :=
  match e with Read _ _ _ _ => true | _ => false end.

(** Every file [e] opens is opened with [flags]. *)
Definition opened_with (flags : Z) (e : event) : bool :=
  match e with Open _ f _ => f =? flags | _ => true end.

(** The files an operation on pin [pin] may open. *)
Definition files_of (pin : Z) : list string :=
  [Sysfs.export; Sysfs.unexport;
   Sysfs.direction pin; Sysfs.value pin; Sysfs.edge pin].

(** [e] stays with pin [pin]: an [access] is of its directory, an [open]
    of one of its files or of the export and unexport files. *)
Definition within (pin : Z) (e : event) : bool :=
  match e with
  | Access path _ _ => String.eqb path (Sysfs.pin_dir pin)
  | Open path _ _ => existsb (String.eqb path) (files_of pin)
  | _ => true
  end.

(** The buffers handed to [write], and the bytes [read] delivered. *)
Definition written (tr : list event) : list string :=
  flat_map (fun e => match e with Write _ buf _ _ => [buf] | _ => [] end) tr.

Definition read_back (tr : list event) : list string :=
  flat_map (fun e => match e with Read _ _ _ got => [got] | _ => [] end) tr.

(** A log is disciplined when every [write], [read] and [close] in it is
    on a descriptor that a successful [open] of the log returned and no
    [close] was called on since; [fds] are the descriptors open at the
    start. *)
Fixpoint disciplined_from (fds : list Z) (tr : list event) : bool :=
  match tr with
  | [] => true
  | Access _ _ _ :: tr' => disciplined_from fds tr'
  | Open _ _ fd :: tr' =>
      disciplined_from (if fd <? 0 then fds else fds ++ [fd]) tr'
  | Write fd _ _ _ :: tr' => existsb (Z.eqb fd) fds && disciplined_from fds tr'
  | Read fd _ _ _ :: tr' => existsb (Z.eqb fd) fds && disciplined_from fds tr'
  | Close fd _ :: tr' =>
      existsb (Z.eqb fd) fds
      && disciplined_from (List.remove Z.eq_dec fd fds) tr'
  end.

Definition disciplined (tr : list event) : bool := disciplined_from [] tr.

(** The logs one call of an operation on pin [pin] can leave, for an
    operation that opens its file with [flags]: nothing; the [access]
    alone; the [access] and a failed [open]; the [access] and a successful
    [open] of a file to write, with nothing after it; or the [access], the
    [open], one [write] or one [read] of one byte on the descriptor opened,
    and its [close]. *)
Inductive call_shape (pin : Z) : Z -> list event -> Prop :=
| shape_nothing (flags : Z) : call_shape pin flags []
| shape_access (flags a : Z) :
    call_shape pin flags [Access (Sysfs.pin_dir pin) F_OK a]
| shape_open_failed (flags a fd : Z) (path : string) :
    In path (files_of pin) -> fd < 0 ->
    call_shape pin flags
      [Access (Sysfs.pin_dir pin) F_OK a; Open path flags fd]
| shape_open_only (a fd : Z) (path : string) :
    In path (files_of pin) -> 0 <= fd ->
    call_shape pin O_WRONLY
      [Access (Sysfs.pin_dir pin) F_OK a; Open path O_WRONLY fd]
| shape_written (a fd n r c : Z) (path buf : string) :
    In path (files_of pin) -> 0 <= fd ->
    call_shape pin O_WRONLY
      [Access (Sysfs.pin_dir pin) F_OK a; Open path O_WRONLY fd;
       Write fd buf n r; Close fd c]
| shape_read (a fd r c : Z) (path got : string) :
    In path (files_of pin) -> 0 <= fd ->
    call_shape pin O_RDONLY
      [Access (Sysfs.pin_dir pin) F_OK a; Open path O_RDONLY fd;
       Read fd 1 r got; Close fd c].

(** The operations that write: export, unexport and the three setters,
    applied to pin [pin]. *)
Inductive writer {W} `{Kernel W} (pin : Z) : M W bool -> Prop :=
| writer_export : writer pin (gpio_export pin)
| writer_unexport : writer pin (gpio_unexport pin)
| writer_setter (op : M W bool) (path : string) (text : option string) :
    setter pin op path text -> writer pin op.

(** * Formatting: no path is ever truncated *)

Section Strings.

Lemma length_append (s1 s2 : string) :
  String.length (s1 +:+ s2) = (String.length s1 + String.length s2)%nat.
Proof. induction s1 as [|c s1 IH]; simpl; [reflexivity | now rewrite IH]. Qed.

Lemma substring_all (s : string) (n : nat) :
  (String.length s <= n)%nat -> substring 0 n s = s.
Proof.
  revert n; induction s as [|c s IH]; intros [|n] Hn; simpl in *;
    try reflexivity; try lia.
  rewrite IH by lia. reflexivity.
Qed.

Lemma snprintf_fits (size : nat) (s : string) :
  (String.length s < size)%nat ->
  Fmt.snprintf size s = (s, Fmt.strlen s).
Proof.
  intros Hlt. unfold Fmt.snprintf. rewrite substring_all by lia. reflexivity.
Qed.

End Strings.

Section Decimal.

Lemma tenth_in_range (k : nat) (n : Z) :
  10 <= n < 10 ^ Z.of_nat (S (S k)) -> 0 <= n / 10 < 10 ^ Z.of_nat (S k).
Proof.
  intros Hn. split; [apply Z.div_pos; lia|].
  apply Z.div_lt_upper_bound; [lia|].
  rewrite <- Z.pow_succ_r by lia. rewrite <- Nat2Z.inj_succ. lia.
Qed.

Lemma utoa_length (k : nat) : forall (fuel : nat) (n : Z) (acc : string),
  (k <= fuel)%nat -> 0 <= n < 10 ^ Z.of_nat (S k) ->
  (String.length acc < String.length (Fmt.utoa fuel n acc)
                     <= S k + String.length acc)%nat.
Proof.
  induction k as [|k IH]; intros fuel n acc Hfuel Hn.
  - change (10 ^ Z.of_nat 1) with 10 in Hn.
    destruct fuel as [|fuel]; simpl.
    + lia.
    + destruct (Z.ltb_spec n 10); simpl; lia.
  - destruct fuel as [|fuel]; [lia|]. simpl Fmt.utoa.
    destruct (Z.ltb_spec n 10) as [Hlt|Hge]; simpl; [lia|].
    specialize (IH fuel (n / 10) (String (Fmt.digit (n mod 10)) acc)
                  ltac:(lia) (tenth_in_range k n ltac:(lia))).
    simpl in IH. lia.
Qed.

(** A pin number prints in one to five characters. *)
Lemma d_length (n : Z) :
  uint16 n -> (1 <= String.length (Fmt.d n) <= 5)%nat.
Proof.
  intros [Hlo Hhi]. unfold Fmt.d.
  destruct (Z.ltb_spec n 0); [lia|].
  assert (Hn : 0 <= n < 10 ^ Z.of_nat 5)
    by (change (10 ^ Z.of_nat 5) with 100000; lia).
  pose proof (utoa_length 4 9 n "" ltac:(lia) Hn) as Hlen.
  change (String.length "") with 0%nat in Hlen. lia.
Qed.

Lemma digit_value (d : Z) :
  0 <= d < 10 -> Z.of_nat (nat_of_ascii (Fmt.digit d)) - 48 = d.
Proof.
  intros Hd. unfold Fmt.digit. rewrite nat_ascii_embedding by lia. lia.
Qed.

Lemma utoa_value (fuel : nat) : forall (n : Z) (acc : string) (v : Z),
  0 <= n < 10 ^ Z.of_nat (S fuel) ->
  exists k : Z,
    fold_left (fun v c => 10 * v + (Z.of_nat (nat_of_ascii c) - 48))
              (list_ascii_of_string (Fmt.utoa fuel n acc)) v
    = fold_left (fun v c => 10 * v + (Z.of_nat (nat_of_ascii c) - 48))
                (list_ascii_of_string acc) (v * 10 ^ k + n)
    /\ 0 < k.
Proof.
  induction fuel as [|fuel IH]; intros n acc v Hn.
  - change (10 ^ Z.of_nat 1) with 10 in Hn. exists 1. simpl.
    rewrite Z.mod_small by lia. rewrite digit_value by lia.
    split; [f_equal; lia | lia].
  - simpl Fmt.utoa. destruct (Z.ltb_spec n 10) as [Hlt|Hge].
    + exists 1. simpl. rewrite Z.mod_small by lia.
      rewrite digit_value by lia. split; [f_equal; lia | lia].
    + destruct (IH (n / 10) (String (Fmt.digit (n mod 10)) acc) v
                  (tenth_in_range fuel n ltac:(lia))) as (k & Heq & Hk).
      exists (k + 1). rewrite Heq. simpl.
      rewrite digit_value by (apply Z.mod_pos_bound; lia).
      split; [f_equal | lia].
      rewrite Z.pow_add_r by lia.
      pose proof (Z.div_mod n 10 ltac:(lia)). lia.
Qed.

(** [%d] prints the decimal representation: reading the digits back gives
    the number. *)
Lemma decimal_d (n : Z) : 0 <= n < 10 ^ 10 -> Sysfs.decimal (Fmt.d n) = n.
Proof.
  intros Hn. unfold Fmt.d, Sysfs.decimal.
  destruct (Z.ltb_spec n 0); [lia|].
  destruct (utoa_value 9 n "" 0 Hn) as (k & Heq & _).
  rewrite Heq. simpl. lia.
Qed.

End Decimal.

Section Paths.
Variable n : Z.
Hypothesis Hn : uint16 n.

Ltac measure :=
  unfold fits, CMD_BUF_MAX_LEN;
  match goal with
  | |- (String.length ?s < _)%nat /\ _ =>
      assert (Hlen : (String.length s < 60)%nat);
      [ pose proof (d_length n Hn);
        unfold Fmt.gpio_fmt, Fmt.export_fmt, Fmt.unexport_fmt,
          Fmt.direction_fmt, Fmt.value_fmt, Fmt.edge_fmt, SYS_GPIO_DIR;
        rewrite ?length_append; simpl String.length; lia
      | split; [exact Hlen | apply snprintf_fits; exact Hlen] ]
  end.

Lemma gpio_fmt_fits : fits (Fmt.gpio_fmt SYS_GPIO_DIR n).
Proof. measure. Qed.

Lemma direction_fmt_fits : fits (Fmt.direction_fmt SYS_GPIO_DIR n).
Proof. measure. Qed.

Lemma value_fmt_fits : fits (Fmt.value_fmt SYS_GPIO_DIR n).
Proof. measure. Qed.

Lemma edge_fmt_fits : fits (Fmt.edge_fmt SYS_GPIO_DIR n).
Proof. measure. Qed.

Lemma d_fits : fits (Fmt.d n).
Proof. measure. Qed.

Lemma gpio_path_eq : gpio_path n = Sysfs.pin_dir n.
Proof. unfold gpio_path. rewrite (proj2 gpio_fmt_fits). reflexivity. Qed.

Lemma direction_path_eq : direction_path n = Sysfs.direction n.
Proof.
  unfold direction_path. rewrite (proj2 direction_fmt_fits). reflexivity.
Qed.

Lemma value_path_eq : value_path n = Sysfs.value n.
Proof. unfold value_path. rewrite (proj2 value_fmt_fits). reflexivity. Qed.

Lemma edge_path_eq : edge_path n = Sysfs.edge n.
Proof. unfold edge_path. rewrite (proj2 edge_fmt_fits). reflexivity. Qed.

Lemma pin_buf_eq :
  Fmt.snprintf CMD_BUF_MAX_LEN (Fmt.d n) = (Fmt.d n, Fmt.strlen (Fmt.d n)).
Proof. exact (proj2 d_fits). Qed.

End Paths.

Lemma export_fmt_fits : fits (Fmt.export_fmt SYS_GPIO_DIR).
Proof. split; [vm_compute; lia | reflexivity]. Qed.

Lemma unexport_fmt_fits : fits (Fmt.unexport_fmt SYS_GPIO_DIR).
Proof. split; [vm_compute; lia | reflexivity]. Qed.

Lemma export_path_eq : export_path = Sysfs.export.
Proof. reflexivity. Qed.

Lemma unexport_path_eq : unexport_path = Sysfs.unexport.
Proof. reflexivity. Qed.

(** C10. For every [uint16_t] pin number, each string [gpio.c] formats into
    its 60-byte command buffer (the pin directory, its [direction], [value]
    and [edge] files, [export], [unexport], and the pin number itself) is
    shorter than the buffer, so [snprintf] delivers it untruncated; the
    path each operation then uses is the sysfs path named by the pin
    number, and the number written is the pin number in decimal. *)
Theorem cmd_buf_never_truncates (n : Z) :
  uint16 n ->
  (fits (Fmt.gpio_fmt SYS_GPIO_DIR n)
   /\ fits (Fmt.direction_fmt SYS_GPIO_DIR n)
   /\ fits (Fmt.value_fmt SYS_GPIO_DIR n)
   /\ fits (Fmt.edge_fmt SYS_GPIO_DIR n)
   /\ fits (Fmt.export_fmt SYS_GPIO_DIR)
   /\ fits (Fmt.unexport_fmt SYS_GPIO_DIR)
   /\ fits (Fmt.d n))
  /\ (gpio_path n = Sysfs.pin_dir n
      /\ direction_path n = Sysfs.direction n
      /\ value_path n = Sysfs.value n
      /\ edge_path n = Sysfs.edge n
      /\ export_path = Sysfs.export
      /\ unexport_path = Sysfs.unexport)
  /\ Sysfs.decimal (Fmt.d n) = n.
Proof.
  intros Hn. split; [|split].
  - pose proof (gpio_fmt_fits n Hn). pose proof (direction_fmt_fits n Hn).
    pose proof (value_fmt_fits n Hn). pose proof (edge_fmt_fits n Hn).
    pose proof (d_fits n Hn). pose proof export_fmt_fits.
    pose proof unexport_fmt_fits. tauto.
  - pose proof (gpio_path_eq n Hn). pose proof (direction_path_eq n Hn).
    pose proof (value_path_eq n Hn). pose proof (edge_path_eq n Hn).
    pose proof export_path_eq. pose proof unexport_path_eq. tauto.
  - apply decimal_d. unfold uint16 in Hn. change (10 ^ 10) with 10000000000.
    lia.
Qed.

Lemma cmd_buf_never_truncates_witness :
  uint16 65535
  /\ fits (Fmt.direction_fmt SYS_GPIO_DIR 65535)
  /\ direction_path 65535 = "/sys/class/gpio/gpio65535/direction".
Proof.
  assert (H16 : uint16 65535) by (unfold uint16; lia).
  pose proof (cmd_buf_never_truncates 65535 H16) as (Hfit & Hpath & _).
  split; [exact H16|]. split.
  - exact (proj1 (proj2 Hfit)).
  - rewrite (proj1 (proj2 Hpath)). reflexivity.
Defined.

(** * Running the operations, one call at a time *)

Section Steps.
Context {W : Type} `{Kernel W} {B : Type}.
Implicit Types (s : state W) (k : Z -> M W B).

Lemma run_access path mode s r w k :
  sys_access path mode (world s) = (r, w) ->
  bind (access path mode) k s = k r (log s w [Access path mode r]).
Proof. intros Hc. unfold bind, access. rewrite Hc. reflexivity. Qed.

Lemma run_open path flags s r w k :
  sys_open path flags (world s) = (r, w) ->
  bind (open path flags) k s = k r (log s w [Open path flags r]).
Proof. intros Hc. unfold bind, open. rewrite Hc. reflexivity. Qed.

Lemma run_write fd buf count s r w k :
  sys_write fd buf count (world s) = (r, w) ->
  bind (write fd buf count) k s = k r (log s w [Write fd buf count r]).
Proof. intros Hc. unfold bind, write. rewrite Hc. reflexivity. Qed.

Lemma run_close fd s r w k :
  sys_close fd (world s) = (r, w) ->
  bind (close fd) k s = k r (log s w [Close fd r]).
Proof. intros Hc. unfold bind, close. rewrite Hc. reflexivity. Qed.

Lemma run_read fd ch count s r data w (k : Z * ascii -> M W B) :
  sys_read fd count (world s) = (r, data, w) ->
  bind (read fd ch count) k s
  = k (r, match received r count data with
          | String c _ => c
          | EmptyString => ch
          end)
      (log s w [Read fd count r (received r count data)]).
Proof. intros Hc. unfold bind, read. rewrite Hc. reflexivity. Qed.

Lemma run_assign p v s (k : unit -> M W B) :
  bind (assign p v) k s = k tt (store s p v).
Proof. reflexivity. Qed.

Lemma log_log s w1 w2 evs1 evs2 :
  log (log s w1 evs1) w2 evs2 = log s w2 (evs1 ++ evs2).
Proof. unfold log. simpl. now rewrite <- app_assoc. Qed.

Lemma log_store s p v w evs :
  log (store s p v) w evs = store (log s w evs) p v.
Proof. reflexivity. Qed.

Lemma added_log s w evs : added s (log s w evs) = evs.
Proof. unfold added, log. simpl. rewrite drop_app_length. reflexivity. Qed.

Lemma added_store s s' p v : added s (store s' p v) = added s s'.
Proof. reflexivity. Qed.

Lemma added_same s : added s s = [].
Proof. unfold added. apply drop_all. Qed.

End Steps.

(** One byte at most comes back from a [read] of one byte. *)
Lemma received_one (r : Z) (data : string) :
  received r 1 data = "" \/ exists c, received r 1 data = String c "".
Proof.
  unfold received. destruct (Z.ltb_spec 0 r) as [Hr|Hr]; [|now left].
  replace (Z.to_nat (Z.min r 1)) with 1%nat by lia.
  destruct data as [|c data]; [now left|]. right. exists c. simpl.
  destruct data; reflexivity.
Qed.

(** [run] follows an operation through the calls whose answers are among
    the hypotheses and decides the comparisons of the answers. *)
Ltac run_call :=
  first
    [ erewrite run_access by eassumption
    | erewrite run_open by eassumption
    | erewrite run_write by eassumption
    | erewrite run_read by eassumption
    | erewrite run_close by eassumption
    | rewrite run_assign ].

Ltac decide_test :=
  match goal with
  | |- context [?a =? ?b] =>
      destruct (Z.eqb_spec a b); try lia; try congruence
  | |- context [?a <? ?b] =>
      destruct (Z.ltb_spec a b); try lia
  end.

Ltac run :=
  repeat first [ run_call | progress cbn [negb fst snd] | decide_test ];
  unfold return_; rewrite ?log_store, ?log_log; cbn [app].

(** [name_answer call] names what the kernel answers to [call]. *)
Ltac name_answer call Hcall :=
  let Hex := fresh "Hex" in
  assert (Hex : exists x, call = x) by (eexists; reflexivity);
  destruct Hex as [? Hcall].

Ltac paths Hpin :=
  rewrite ?(proj2 (gpio_fmt_fits _ Hpin)), ?(proj2 (direction_fmt_fits _ Hpin)),
    ?(proj2 (value_fmt_fits _ Hpin)), ?(proj2 (edge_fmt_fits _ Hpin)),
    ?(proj2 export_fmt_fits), ?(proj2 unexport_fmt_fits), ?(pin_buf_eq _ Hpin);
  cbn [fst snd];
  change (Fmt.gpio_fmt SYS_GPIO_DIR ?n) with (Sysfs.pin_dir n);
  change (Fmt.direction_fmt SYS_GPIO_DIR ?n) with (Sysfs.direction n);
  change (Fmt.value_fmt SYS_GPIO_DIR ?n) with (Sysfs.value n);
  change (Fmt.edge_fmt SYS_GPIO_DIR ?n) with (Sysfs.edge n);
  change (Fmt.export_fmt SYS_GPIO_DIR) with Sysfs.export;
  change (Fmt.unexport_fmt SYS_GPIO_DIR) with Sysfs.unexport.

(** * What each operation does, call by call

    One lemma per operation: given what the kernel answers to each call on
    the way, the result and the final state, log included. *)

Section Runs.
Context {W : Type} `{Kernel W}.
Variables (pin : Z) (s : state W).
Hypothesis Hpin : uint16 pin.

Lemma gpio_export_run (a : Z) (w1 : W) :
  sys_access (Sysfs.pin_dir pin) F_OK (world s) = (a, w1) ->
  (a = 0 ->
   gpio_export pin s
   = (true, log s w1 [Access (Sysfs.pin_dir pin) F_OK a]))
  /\ (a <> 0 ->
      forall (fd : Z) (w2 : W),
        sys_open Sysfs.export O_WRONLY w1 = (fd, w2) ->
        (fd < 0 ->
         gpio_export pin s
         = (false, log s w2 [Access (Sysfs.pin_dir pin) F_OK a;
                             Open Sysfs.export O_WRONLY fd]))
        /\ (0 <= fd ->
            forall (r : Z) (w3 : W) (c : Z) (w4 : W),
              sys_write fd (Fmt.d pin) (Fmt.strlen (Fmt.d pin)) w2 = (r, w3) ->
              sys_close fd w3 = (c, w4) ->
              gpio_export pin s
              = ((r =? Fmt.strlen (Fmt.d pin)) && (c =? 0),
                 log s w4 [Access (Sysfs.pin_dir pin) F_OK a;
                           Open Sysfs.export O_WRONLY fd;
                           Write fd (Fmt.d pin) (Fmt.strlen (Fmt.d pin)) r;
                           Close fd c]))).
Proof.
  intros Hacc. unfold gpio_export. paths Hpin. split.
  - intros ->. run. reflexivity.
  - intros Ha fd w2 Hopen. split.
    + intros Hfd. run. reflexivity.
    + intros Hfd r w3 c w4 Hwrite Hclose. run; reflexivity.
Qed.

Lemma gpio_unexport_run (a : Z) (w1 : W) :
  sys_access (Sysfs.pin_dir pin) F_OK (world s) = (a, w1) ->
  (a = -1 ->
   gpio_unexport pin s
   = (true, log s w1 [Access (Sysfs.pin_dir pin) F_OK a]))
  /\ (a <> -1 ->
      forall (fd : Z) (w2 : W),
        sys_open Sysfs.unexport O_WRONLY w1 = (fd, w2) ->
        (fd < 0 ->
         gpio_unexport pin s
         = (false, log s w2 [Access (Sysfs.pin_dir pin) F_OK a;
                             Open Sysfs.unexport O_WRONLY fd]))
        /\ (0 <= fd ->
            forall (r : Z) (w3 : W) (c : Z) (w4 : W),
              sys_write fd (Fmt.d pin) (Fmt.strlen (Fmt.d pin)) w2 = (r, w3) ->
              sys_close fd w3 = (c, w4) ->
              gpio_unexport pin s
              = ((r =? Fmt.strlen (Fmt.d pin)) && (c =? 0),
                 log s w4 [Access (Sysfs.pin_dir pin) F_OK a;
                           Open Sysfs.unexport O_WRONLY fd;
                           Write fd (Fmt.d pin) (Fmt.strlen (Fmt.d pin)) r;
                           Close fd c]))).
Proof.
  intros Hacc. unfold gpio_unexport. paths Hpin. split.
  - intros ->. run. reflexivity.
  - intros Ha fd w2 Hopen. split.
    + intros Hfd. run. reflexivity.
    + intros Hfd r w3 c w4 Hwrite Hclose. run; reflexivity.
Qed.

Ltac setter_cases defn text :=
  intros Hacc; unfold setter_run, defn; paths Hpin; split;
  [ intros ->; run; reflexivity
  | intros Ha fd w2 Hopen; split;
    [ intros Hfd; run; reflexivity
    | intros Hfd; split;
      [ unfold text; intros Htext; run;
        first [ reflexivity | discriminate Htext ]
      | unfold text; intros lit r w3 c w4 Htext Hwrite Hclose;
        repeat decide_test;
        first [ discriminate Htext
              | injection Htext as <-; run; reflexivity ] ] ] ].

Lemma gpio_set_direction_run (direction a : Z) (w1 : W) :
  sys_access (Sysfs.pin_dir pin) F_OK (world s) = (a, w1) ->
  setter_run pin s (gpio_set_direction pin direction) (Sysfs.direction pin)
             (Sysfs.direction_text direction) a w1.
Proof. setter_cases (@gpio_set_direction) Sysfs.direction_text. Qed.

Lemma gpio_set_value_run (value a : Z) (w1 : W) :
  sys_access (Sysfs.pin_dir pin) F_OK (world s) = (a, w1) ->
  setter_run pin s (gpio_set_value pin value) (Sysfs.value pin)
             (Sysfs.level_text value) a w1.
Proof. setter_cases (@gpio_set_value) Sysfs.level_text. Qed.

Lemma gpio_set_edge_run (edge a : Z) (w1 : W) :
  sys_access (Sysfs.pin_dir pin) F_OK (world s) = (a, w1) ->
  setter_run pin s (gpio_set_edge pin edge) (Sysfs.edge pin)
             (Sysfs.edge_text edge) a w1.
Proof. setter_cases (@gpio_set_edge) Sysfs.edge_text. Qed.

Lemma setter_runs (op : M W bool) (path : string) (text : option string)
    (a : Z) (w1 : W) :
  setter pin op path text ->
  sys_access (Sysfs.pin_dir pin) F_OK (world s) = (a, w1) ->
  setter_run pin s op path text a w1.
Proof.
  intros [direction | value | edge] Hacc.
  - exact (gpio_set_direction_run direction a w1 Hacc).
  - exact (gpio_set_value_run value a w1 Hacc).
  - exact (gpio_set_edge_run edge a w1 Hacc).
Qed.

Lemma gpio_get_value_null : gpio_get_value NULL pin s = (false, s).
Proof. reflexivity. Qed.

Lemma gpio_get_value_run (value a : Z) (w1 : W) :
  value <> NULL ->
  sys_access (Sysfs.pin_dir pin) F_OK (world s) = (a, w1) ->
  (a = -1 ->
   gpio_get_value value pin s
   = (false, log s w1 [Access (Sysfs.pin_dir pin) F_OK a]))
  /\ (a <> -1 ->
      forall (fd : Z) (w2 : W),
        sys_open (Sysfs.value pin) O_RDONLY w1 = (fd, w2) ->
        (fd < 0 ->
         gpio_get_value value pin s
         = (false, log s w2 [Access (Sysfs.pin_dir pin) F_OK a;
                             Open (Sysfs.value pin) O_RDONLY fd]))
        /\ (0 <= fd ->
            forall (r : Z) (data : string) (w3 : W) (c : Z) (w4 : W),
              sys_read fd 1 w2 = (r, data, w3) ->
              sys_close fd w3 = (c, w4) ->
              let got := received r 1 data in
              let done :=
                log s w4 [Access (Sysfs.pin_dir pin) F_OK a;
                          Open (Sysfs.value pin) O_RDONLY fd;
                          Read fd 1 r got;
                          Close fd c] in
              gpio_get_value value pin s
              = if r =? -1 then (false, done)
                else match Sysfs.level_of got with
                     | Some v => (negb (c =? -1), store done value v)
                     | None => (false, done)
                     end)).
Proof.
  intros Hnull Hacc. unfold gpio_get_value.
  destruct (Z.eqb_spec value NULL) as [|_]; [contradiction|].
  paths Hpin. split.
  - intros ->. run. reflexivity.
  - intros Ha fd w2 Hopen. split.
    + intros Hfd. run. reflexivity.
    + intros Hfd r data w3 c w4 Hread Hclose.
      run_call. destruct (Z.eqb_spec (-1) a) as [|_]; [lia|].
      run_call. destruct (Z.ltb_spec fd 0) as [|_]; [lia|].
      run_call. cbn beta iota.
      destruct (received r 1 data) as [|ch rest]; cbn [Sysfs.level_of].
      * change (Ascii.eqb "000" "0") with false.
        change (Ascii.eqb "000" "1") with false.
        destruct (Z.eqb_spec r (-1)) as [Hr|Hr]; cbn iota; run; reflexivity.
      * destruct (Z.eqb_spec r (-1)) as [Hr|Hr]; cbn iota;
          [ run; reflexivity |].
        destruct (Ascii.eqb ch "0"); [run; reflexivity|].
        destruct (Ascii.eqb ch "1"); run; reflexivity.
Qed.

Lemma gpio_open_run (fd : Z) (w1 : W) :
  sys_open (Sysfs.value pin) (Z.lor O_RDONLY O_NONBLOCK) (world s) = (fd, w1) ->
  gpio_open pin s
  = (if fd <? 0 then -1 else fd,
     log s w1 [Open (Sysfs.value pin) (Z.lor O_RDONLY O_NONBLOCK) fd]).
Proof.
  intros Hopen. unfold gpio_open. paths Hpin. run_call.
  destruct (fd <? 0); reflexivity.
Qed.

Lemma gpio_close_run (fd c : Z) (w : W) :
  sys_close fd (world s) = (c, w) ->
  gpio_close fd s = (c =? 0, log s w [Close fd c]).
Proof.
  intros Hclose. unfold gpio_close. run_call. rewrite (Z.eqb_sym 0 c).
  destruct (c =? 0); reflexivity.
Qed.

End Runs.

(** * Export and unexport *)

Section ExportUnexport.
Context {W : Type} `{Kernel W}.
Variables (pin : Z) (s : state W).
Hypothesis Hpin : uint16 pin.

(** C2, as amended.  If [/sys/class/gpio/gpioN] exists ([access] answers
    0), [gpio_export] returns [true] at once: the [access] is its only call,
    nothing is written.  Otherwise it opens [/sys/class/gpio/export] for
    writing and returns [false] if that fails; else it writes the decimal
    pin number and closes the descriptor, and it fails exactly when the
    write did not return the full length or the final [close] did not
    return 0. *)
Theorem gpio_export_spec (a : Z) (w1 : W) :
  sys_access (Sysfs.pin_dir pin) F_OK (world s) = (a, w1) ->
  (a = 0 ->
   gpio_export pin s
   = (true, log s w1 [Access (Sysfs.pin_dir pin) F_OK a]))
  /\ (a <> 0 ->
      forall (fd : Z) (w2 : W),
        sys_open Sysfs.export O_WRONLY w1 = (fd, w2) ->
        (fd < 0 ->
         gpio_export pin s
         = (false, log s w2 [Access (Sysfs.pin_dir pin) F_OK a;
                             Open Sysfs.export O_WRONLY fd]))
        /\ (0 <= fd ->
            forall (r : Z) (w3 : W) (c : Z) (w4 : W),
              sys_write fd (Fmt.d pin) (Fmt.strlen (Fmt.d pin)) w2 = (r, w3) ->
              sys_close fd w3 = (c, w4) ->
              added s (snd (gpio_export pin s))
              = [Access (Sysfs.pin_dir pin) F_OK a;
                 Open Sysfs.export O_WRONLY fd;
                 Write fd (Fmt.d pin) (Fmt.strlen (Fmt.d pin)) r;
                 Close fd c]
              /\ Sysfs.decimal (Fmt.d pin) = pin
              /\ (fst (gpio_export pin s) = false
                  <-> r <> Fmt.strlen (Fmt.d pin) \/ c <> 0))).
Proof.
  intros Hacc. destruct (gpio_export_run pin s Hpin a w1 Hacc) as [Hyes Hno].
  split; [exact Hyes|]. intros Ha fd w2 Hopen.
  destruct (Hno Ha fd w2 Hopen) as [Hfail Hok]. split; [exact Hfail|].
  intros Hfd r w3 c w4 Hwrite Hclose.
  rewrite (Hok Hfd r w3 c w4 Hwrite Hclose). cbn [fst snd].
  rewrite added_log. split; [reflexivity|]. split.
  - apply decimal_d. unfold uint16 in Hpin.
    change (10 ^ 10) with 10000000000. lia.
  - rewrite andb_false_iff, !Z.eqb_neq. reflexivity.
Qed.

(** C6.  If [/sys/class/gpio/gpioN] does not exist ([access] answers -1),
    [gpio_unexport] returns [true] at once: the [access] is its only call,
    nothing is written.  Otherwise it opens [/sys/class/gpio/unexport] for
    writing and returns [false] if that fails; else it writes the decimal
    pin number and closes the descriptor, and fails as [gpio_export] does:
    when the write did not return the full length (and when the final
    [close] did not return 0). *)
Theorem gpio_unexport_spec (a : Z) (w1 : W) :
  sys_access (Sysfs.pin_dir pin) F_OK (world s) = (a, w1) ->
  (a = -1 ->
   gpio_unexport pin s
   = (true, log s w1 [Access (Sysfs.pin_dir pin) F_OK a]))
  /\ (a <> -1 ->
      forall (fd : Z) (w2 : W),
        sys_open Sysfs.unexport O_WRONLY w1 = (fd, w2) ->
        (fd < 0 ->
         gpio_unexport pin s
         = (false, log s w2 [Access (Sysfs.pin_dir pin) F_OK a;
                             Open Sysfs.unexport O_WRONLY fd]))
        /\ (0 <= fd ->
            forall (r : Z) (w3 : W) (c : Z) (w4 : W),
              sys_write fd (Fmt.d pin) (Fmt.strlen (Fmt.d pin)) w2 = (r, w3) ->
              sys_close fd w3 = (c, w4) ->
              added s (snd (gpio_unexport pin s))
              = [Access (Sysfs.pin_dir pin) F_OK a;
                 Open Sysfs.unexport O_WRONLY fd;
                 Write fd (Fmt.d pin) (Fmt.strlen (Fmt.d pin)) r;
                 Close fd c]
              /\ Sysfs.decimal (Fmt.d pin) = pin
              /\ (r < Fmt.strlen (Fmt.d pin) ->
                  fst (gpio_unexport pin s) = false)
              /\ (fst (gpio_unexport pin s) = false
                  <-> r <> Fmt.strlen (Fmt.d pin) \/ c <> 0))).
Proof.
  intros Hacc.
  destruct (gpio_unexport_run pin s Hpin a w1 Hacc) as [Hyes Hno].
  split; [exact Hyes|]. intros Ha fd w2 Hopen.
  destruct (Hno Ha fd w2 Hopen) as [Hfail Hok]. split; [exact Hfail|].
  intros Hfd r w3 c w4 Hwrite Hclose.
  rewrite (Hok Hfd r w3 c w4 Hwrite Hclose). cbn [fst snd].
  rewrite added_log. split; [reflexivity|]. split; [|split].
  - apply decimal_d. unfold uint16 in Hpin.
    change (10 ^ 10) with 10000000000. lia.
  - intros Hshort. apply andb_false_iff. left. apply Z.eqb_neq. lia.
  - rewrite andb_false_iff, !Z.eqb_neq. reflexivity.
Qed.

End ExportUnexport.

(** C2 as stated does not hold: pin 17 is not exported, the export file
    opens (descriptor 3) and the write of ["17"] returns the full 2 bytes,
    yet [gpio_export] returns [false], because the [close] returned -1. *)
Lemma gpio_export_fails_on_close :
  gpio_export 17
    (Script.init [Script.R (-1); Script.R 3; Script.R 2; Script.R (-1)] ∅)
  = (false,
     State []
       [Access "/sys/class/gpio/gpio17" 0 (-1);
        Open "/sys/class/gpio/export" 1 3;
        Write 3 "17" 2 2;
        Close 3 (-1)]
       ∅).
Proof. vm_compute. reflexivity. Qed.

Lemma gpio_export_spec_witness :
  uint16 17
  /\ added (Script.init [Script.R (-1); Script.R 3; Script.R 1; Script.R 0] ∅)
       (snd (gpio_export 17
          (Script.init [Script.R (-1); Script.R 3; Script.R 1; Script.R 0] ∅)))
     = [Access "/sys/class/gpio/gpio17" 0 (-1);
        Open "/sys/class/gpio/export" 1 3;
        Write 3 "17" 2 1;
        Close 3 0]
  /\ fst (gpio_export 17
       (Script.init [Script.R (-1); Script.R 3; Script.R 1; Script.R 0] ∅))
     = false.
Proof.
  assert (H17 : uint16 17) by (unfold uint16; lia).
  split; [exact H17|].
  destruct (@gpio_export_spec Script.t Script.kernel 17
              (Script.init [Script.R (-1); Script.R 3; Script.R 1; Script.R 0] ∅)
              H17 (-1) [Script.R 3; Script.R 1; Script.R 0] eq_refl)
    as [_ Hno].
  destruct (Hno ltac:(lia) 3 [Script.R 1; Script.R 0] eq_refl) as [_ Hok].
  destruct (Hok ltac:(lia) 1 [Script.R 0] 0 [] eq_refl eq_refl)
    as (Hlog & _ & Hfails).
  split; [exact Hlog|]. apply Hfails. left. vm_compute. discriminate.
Defined.

Lemma gpio_unexport_spec_witness :
  uint16 17
  /\ gpio_unexport 17 (MemFs.init (MemFs.board [(4, "0")]) ∅)
     = (true,
        log (MemFs.init (MemFs.board [(4, "0")]) ∅) (MemFs.board [(4, "0")])
          [Access "/sys/class/gpio/gpio17" 0 (-1)]).
Proof.
  assert (H17 : uint16 17) by (unfold uint16; lia).
  split; [exact H17|].
  assert (Hacc : sys_access (Sysfs.pin_dir 17) F_OK
                   (world (MemFs.init (MemFs.board [(4, "0")]) ∅))
                 = (-1, MemFs.board [(4, "0")]))
    by (vm_compute; reflexivity).
  exact (proj1 (gpio_unexport_spec 17 _ H17 (-1) _ Hacc) eq_refl).
Defined.

(** * A pin that is not exported *)

Section NotExported.
Context {W : Type} `{Kernel W}.
Variables (pin : Z) (s : state W).
Hypothesis Hpin : uint16 pin.

(** C3.  When [/sys/class/gpio/gpioN] does not exist ([access] answers
    -1), [gpio_set_direction], [gpio_set_value], [gpio_set_edge] and
    [gpio_get_value] return [false], whatever their other argument, and
    the [access] is the only call each of them makes: no file of the pin is
    opened, nothing is written, and memory is as it was.  (With a null
    output pointer [gpio_get_value] does not even make that call.) *)
Theorem not_exported_is_refused (w1 : W) :
  sys_access (Sysfs.pin_dir pin) F_OK (world s) = (-1, w1) ->
  (forall direction : Z,
     gpio_set_direction pin direction s
     = (false, log s w1 [Access (Sysfs.pin_dir pin) F_OK (-1)]))
  /\ (forall value : Z,
        gpio_set_value pin value s
        = (false, log s w1 [Access (Sysfs.pin_dir pin) F_OK (-1)]))
  /\ (forall edge : Z,
        gpio_set_edge pin edge s
        = (false, log s w1 [Access (Sysfs.pin_dir pin) F_OK (-1)]))
  /\ (forall value : Z,
        value <> NULL ->
        gpio_get_value value pin s
        = (false, log s w1 [Access (Sysfs.pin_dir pin) F_OK (-1)]))
  /\ gpio_get_value NULL pin s = (false, s).
Proof.
  intros Hacc. repeat split.
  - intros direction.
    exact (proj1 (gpio_set_direction_run pin s Hpin direction _ _ Hacc) eq_refl).
  - intros value.
    exact (proj1 (gpio_set_value_run pin s Hpin value _ _ Hacc) eq_refl).
  - intros edge.
    exact (proj1 (gpio_set_edge_run pin s Hpin edge _ _ Hacc) eq_refl).
  - intros value Hvalue.
    exact (proj1 (gpio_get_value_run pin s Hpin value _ _ Hvalue Hacc) eq_refl).
Qed.

End NotExported.

Lemma not_exported_is_refused_witness :
  uint16 18
  /\ gpio_set_edge 18 E_GPIO_RISING (MemFs.init (MemFs.board [(17, "1")]) ∅)
     = (false,
        log (MemFs.init (MemFs.board [(17, "1")]) ∅) (MemFs.board [(17, "1")])
          [Access "/sys/class/gpio/gpio18" 0 (-1)]).
Proof.
  assert (H18 : uint16 18) by (unfold uint16; lia).
  split; [exact H18|].
  assert (Hacc : sys_access (Sysfs.pin_dir 18) F_OK
                   (world (MemFs.init (MemFs.board [(17, "1")]) ∅))
                 = (-1, MemFs.board [(17, "1")]))
    by (vm_compute; reflexivity).
  destruct (not_exported_is_refused 18 _ H18 _ Hacc) as (_ & _ & Hedge & _).
  exact (Hedge E_GPIO_RISING).
Defined.

(** * Short writes *)

Section ShortWrites.
Context {W : Type} `{Kernel W}.
Variables (pin : Z) (s : state W).
Hypothesis Hpin : uint16 pin.

(** C5, as amended.  In [gpio_export] and [gpio_unexport] a write that
    returns fewer bytes than requested is a failure: the descriptor is
    closed and the result is [false].  In [gpio_set_direction],
    [gpio_set_value] and [gpio_set_edge] only a write that returns -1 is:
    after any other return value, a short nonnegative one too, the
    descriptor is closed and the result is [true], unless that [close]
    returns -1. *)
Theorem short_write_handling (a : Z) (w1 : W) :
  sys_access (Sysfs.pin_dir pin) F_OK (world s) = (a, w1) ->
  (a <> 0 ->
   forall (fd : Z) (w2 : W) (r : Z) (w3 : W) (c : Z) (w4 : W),
     sys_open Sysfs.export O_WRONLY w1 = (fd, w2) ->
     0 <= fd ->
     sys_write fd (Fmt.d pin) (Fmt.strlen (Fmt.d pin)) w2 = (r, w3) ->
     r < Fmt.strlen (Fmt.d pin) ->
     sys_close fd w3 = (c, w4) ->
     gpio_export pin s
     = (false, log s w4 [Access (Sysfs.pin_dir pin) F_OK a;
                         Open Sysfs.export O_WRONLY fd;
                         Write fd (Fmt.d pin) (Fmt.strlen (Fmt.d pin)) r;
                         Close fd c]))
  /\ (a <> -1 ->
      forall (fd : Z) (w2 : W) (r : Z) (w3 : W) (c : Z) (w4 : W),
        sys_open Sysfs.unexport O_WRONLY w1 = (fd, w2) ->
        0 <= fd ->
        sys_write fd (Fmt.d pin) (Fmt.strlen (Fmt.d pin)) w2 = (r, w3) ->
        r < Fmt.strlen (Fmt.d pin) ->
        sys_close fd w3 = (c, w4) ->
        gpio_unexport pin s
        = (false, log s w4 [Access (Sysfs.pin_dir pin) F_OK a;
                            Open Sysfs.unexport O_WRONLY fd;
                            Write fd (Fmt.d pin) (Fmt.strlen (Fmt.d pin)) r;
                            Close fd c]))
  /\ (a <> -1 ->
      forall (op : M W bool) (path lit : string),
        setter pin op path (Some lit) ->
        forall (fd : Z) (w2 : W) (r : Z) (w3 : W) (c : Z) (w4 : W),
          sys_open path O_WRONLY w1 = (fd, w2) ->
          0 <= fd ->
          sys_write fd lit (Fmt.strlen lit) w2 = (r, w3) ->
          sys_close fd w3 = (c, w4) ->
          op s
          = (negb (r =? -1) && negb (c =? -1),
             log s w4 [Access (Sysfs.pin_dir pin) F_OK a;
                       Open path O_WRONLY fd;
                       Write fd lit (Fmt.strlen lit) r;
                       Close fd c])
          /\ (r = -1 -> fst (op s) = false)
          /\ (0 <= r < Fmt.strlen lit -> c <> -1 -> fst (op s) = true)).
Proof.
  intros Hacc. split; [|split].
  - intros Ha fd w2 r w3 c w4 Hopen Hfd Hwrite Hshort Hclose.
    destruct (gpio_export_run pin s Hpin a w1 Hacc) as [_ Hno].
    rewrite (proj2 (Hno Ha fd w2 Hopen) Hfd r w3 c w4 Hwrite Hclose).
    destruct (Z.eqb_spec r (Fmt.strlen (Fmt.d pin))); [lia | reflexivity].
  - intros Ha fd w2 r w3 c w4 Hopen Hfd Hwrite Hshort Hclose.
    destruct (gpio_unexport_run pin s Hpin a w1 Hacc) as [_ Hno].
    rewrite (proj2 (Hno Ha fd w2 Hopen) Hfd r w3 c w4 Hwrite Hclose).
    destruct (Z.eqb_spec r (Fmt.strlen (Fmt.d pin))); [lia | reflexivity].
  - intros Ha op path lit Hop fd w2 r w3 c w4 Hopen Hfd Hwrite Hclose.
    destruct (setter_runs pin s Hpin op path (Some lit) a w1 Hop Hacc)
      as [_ Hno].
    destruct (Hno Ha fd w2 Hopen) as [_ Hok].
    destruct (Hok Hfd) as [_ Hwritten].
    rewrite (Hwritten lit r w3 c w4 eq_refl Hwrite Hclose). cbn [fst].
    split; [reflexivity|]. split.
    + intros ->. reflexivity.
    + intros Hr Hc.
      destruct (Z.eqb_spec r (-1)); [lia|].
      destruct (Z.eqb_spec c (-1)); [lia|]. reflexivity.
Qed.

End ShortWrites.

(** C5 as stated does not hold: pin 17 is exported, its value file opens
    (descriptor 3), the write of ["1"] returns 0, short and nonnegative,
    yet [gpio_set_value] returns [false], because the [close] returned
    -1. *)
Lemma short_write_then_close_failure :
  gpio_set_value 17 E_GPIO_HIGH
    (Script.init [Script.R 0; Script.R 3; Script.R 0; Script.R (-1)] ∅)
  = (false,
     State []
       [Access "/sys/class/gpio/gpio17" 0 0;
        Open "/sys/class/gpio/gpio17/value" 1 3;
        Write 3 "1" 1 0;
        Close 3 (-1)]
       ∅).
Proof. vm_compute. reflexivity. Qed.

Lemma short_write_handling_witness :
  uint16 17
  /\ fst (gpio_set_direction 17 E_GPIO_OUT
            (Script.init [Script.R 0; Script.R 3; Script.R 1; Script.R 0] ∅))
     = true.
Proof.
  assert (H17 : uint16 17) by (unfold uint16; lia).
  split; [exact H17|].
  destruct (@short_write_handling Script.t Script.kernel 17
              (Script.init [Script.R 0; Script.R 3; Script.R 1; Script.R 0] ∅)
              H17 0 [Script.R 3; Script.R 1; Script.R 0] eq_refl)
    as (_ & _ & Hset).
  refine (proj2 (proj2 (Hset ltac:(lia)
                          (gpio_set_direction 17 E_GPIO_OUT)
                          (Sysfs.direction 17) "out"
                          (set_direction 17 E_GPIO_OUT)
                          3 [Script.R 1; Script.R 0] 1 [Script.R 0] 0 []
                          eq_refl ltac:(lia) eq_refl eq_refl)) _ _).
  - vm_compute. split; [discriminate | reflexivity].
  - lia.
Defined.

(** * Reading a level *)

Section GetValue.
Context {W : Type} `{Kernel W}.
Variables (pin : Z) (s : state W).
Hypothesis Hpin : uint16 pin.

(** C9.  With a null output pointer [gpio_get_value] returns [false] at
    once: the state is as before, so the log is, and no call was made: no
    [access], no [open], no [read]. *)
Theorem gpio_get_value_null_pointer (gpio_num : Z) (s0 : state W) :
  gpio_get_value NULL gpio_num s0 = (false, s0)
  /\ added s0 (snd (gpio_get_value NULL gpio_num s0)) = [].
Proof. split; [reflexivity | apply added_same]. Qed.

(** C1, as amended.  With an output pointer that is not null,
    [gpio_get_value] returns [false] if the pin is not exported or its value
    file cannot be opened for reading.  Otherwise it makes one [read] of one
    byte from [gpioN/value] and closes the descriptor.  It returns [false]
    if the read returned -1.  If the byte read is ['0'] it stores
    [E_GPIO_LOW] through the pointer, if it is ['1'] it stores
    [E_GPIO_HIGH], and then returns [true] unless the [close] returned -1
    (then [false], the level stored all the same).  For any other byte, and
    when nothing was read, it returns [false] and stores nothing. *)
Theorem gpio_get_value_spec (value a : Z) (w1 : W) :
  value <> NULL ->
  sys_access (Sysfs.pin_dir pin) F_OK (world s) = (a, w1) ->
  (a = -1 ->
   gpio_get_value value pin s
   = (false, log s w1 [Access (Sysfs.pin_dir pin) F_OK a]))
  /\ (a <> -1 ->
      forall (fd : Z) (w2 : W),
        sys_open (Sysfs.value pin) O_RDONLY w1 = (fd, w2) ->
        (fd < 0 ->
         gpio_get_value value pin s
         = (false, log s w2 [Access (Sysfs.pin_dir pin) F_OK a;
                             Open (Sysfs.value pin) O_RDONLY fd]))
        /\ (0 <= fd ->
            forall (r : Z) (data : string) (w3 : W) (c : Z) (w4 : W),
              sys_read fd 1 w2 = (r, data, w3) ->
              sys_close fd w3 = (c, w4) ->
              let got := received r 1 data in
              let done :=
                log s w4 [Access (Sysfs.pin_dir pin) F_OK a;
                          Open (Sysfs.value pin) O_RDONLY fd;
                          Read fd 1 r got;
                          Close fd c] in
              (r = -1 -> gpio_get_value value pin s = (false, done))
              /\ (r <> -1 -> got = "0" ->
                  gpio_get_value value pin s
                  = (negb (c =? -1), store done value E_GPIO_LOW))
              /\ (r <> -1 -> got = "1" ->
                  gpio_get_value value pin s
                  = (negb (c =? -1), store done value E_GPIO_HIGH))
              /\ (r <> -1 -> got <> "0" -> got <> "1" ->
                  gpio_get_value value pin s = (false, done)))).
Proof.
  intros Hvalue Hacc.
  destruct (gpio_get_value_run pin s Hpin value a w1 Hvalue Hacc)
    as [Hyes Hno].
  split; [exact Hyes|]. intros Ha fd w2 Hopen.
  destruct (Hno Ha fd w2 Hopen) as [Hfail Hok]. split; [exact Hfail|].
  intros Hfd r data w3 c w4 Hread Hclose got done.
  pose proof (Hok Hfd r data w3 c w4 Hread Hclose) as Hrun.
  cbv zeta in Hrun. fold got in Hrun. fold done in Hrun. rewrite Hrun.
  repeat split.
  - intros ->. reflexivity.
  - intros Hr ->. destruct (Z.eqb_spec r (-1)); [lia | reflexivity].
  - intros Hr ->. destruct (Z.eqb_spec r (-1)); [lia | reflexivity].
  - intros Hr H0 H1. destruct (Z.eqb_spec r (-1)); [lia|].
    destruct (received_one r data) as [Hgot | [ch Hgot]];
      fold got in Hgot; rewrite Hgot in *; cbn [Sysfs.level_of].
    + reflexivity.
    + destruct (Ascii.eqb_spec ch "0") as [->|_]; [congruence|].
      destruct (Ascii.eqb_spec ch "1") as [->|_]; [congruence|].
      reflexivity.
Qed.

(** C8, as amended.  [gpio_get_value] writes through its output pointer
    only after it has read a byte equal to ['0'] or ['1'], and then it
    returns [false] only if the final [close] returned -1.  So whenever it
    returns [false], memory is as it was, unless the failure is that of the
    final [close]: then the level read has been stored. *)
Theorem gpio_get_value_frame (value : Z) (b : bool) (s' : state W) :
  gpio_get_value value pin s = (b, s') ->
  heap s' = heap s
  \/ (exists (v a fd r c : Z) (got : string),
        (got = "0" /\ v = E_GPIO_LOW \/ got = "1" /\ v = E_GPIO_HIGH)
        /\ added s s' = [Access (Sysfs.pin_dir pin) F_OK a;
                         Open (Sysfs.value pin) O_RDONLY fd;
                         Read fd 1 r got;
                         Close fd c]
        /\ heap s' = <[value := v]> (heap s)
        /\ b = negb (c =? -1)).
Proof.
  intros Hrun.
  destruct (Z.eq_dec value NULL) as [->|Hvalue].
  { rewrite gpio_get_value_null in Hrun. left. congruence. }
  name_answer (sys_access (Sysfs.pin_dir pin) F_OK (world s)) Hacc.
  destruct x as [a w1].
  destruct (gpio_get_value_run pin s Hpin value a w1 Hvalue Hacc)
    as [Hyes Hno].
  destruct (Z.eq_dec a (-1)) as [Ha|Ha].
  { rewrite (Hyes Ha) in Hrun. left. injection Hrun as _ <-. reflexivity. }
  name_answer (sys_open (Sysfs.value pin) O_RDONLY w1) Hopen.
  destruct x as [fd w2].
  destruct (Hno Ha fd w2 Hopen) as [Hfail Hok].
  destruct (Z.lt_ge_cases fd 0) as [Hfd|Hfd].
  { rewrite (Hfail Hfd) in Hrun. left. injection Hrun as _ <-. reflexivity. }
  name_answer (sys_read fd 1 w2) Hread. destruct x as [[r data] w3].
  name_answer (sys_close fd w3) Hclose. destruct x as [c w4].
  rewrite (Hok Hfd r data w3 c w4 Hread Hclose) in Hrun.
  destruct (Z.eqb_spec r (-1)) as [Hr|Hr].
  { left. injection Hrun as _ <-. reflexivity. }
  destruct (received_one r data) as [Hgot | [ch Hgot]];
    rewrite Hgot in Hrun; cbn [Sysfs.level_of] in Hrun.
  { left. injection Hrun as _ <-. reflexivity. }
  destruct (Ascii.eqb_spec ch "0") as [Hch|_].
  { right. exists E_GPIO_LOW, a, fd, r, c, "0"%string.
    injection Hrun as <- <-. rewrite added_store, added_log, Hch.
    repeat split. left. split; reflexivity. }
  destruct (Ascii.eqb_spec ch "1") as [Hch|_].
  { right. exists E_GPIO_HIGH, a, fd, r, c, "1"%string.
    injection Hrun as <- <-. rewrite added_store, added_log, Hch.
    repeat split. right. split; reflexivity. }
  left. injection Hrun as _ <-. reflexivity.
Qed.

End GetValue.

(** C1 as stated does not hold: pin 17 is exported, its value file opens
    (descriptor 3) and one character, ['1'], is read, yet the result is
    [false], not [true], because the [close] returned -1. *)
Lemma gpio_get_value_fails_on_close :
  gpio_get_value 100 17
    (Script.init
       [Script.R 0; Script.R 3; Script.Reply 1 "1"; Script.R (-1)] ∅)
  = (false,
     State []
       [Access "/sys/class/gpio/gpio17" 0 0;
        Open "/sys/class/gpio/gpio17/value" 0 3;
        Read 3 1 1 "1";
        Close 3 (-1)]
       {[100 := E_GPIO_HIGH]}).
Proof. vm_compute. reflexivity. Qed.

(** C8 as stated does not hold: here [gpio_get_value] returns [false], and
    the object its pointer designates, which held [E_GPIO_HIGH], holds
    [E_GPIO_LOW] afterwards. *)
Lemma gpio_get_value_false_yet_stored :
  fst (gpio_get_value 100 17
         (Script.init
            [Script.R 0; Script.R 3; Script.Reply 1 "0"; Script.R (-1)]
            {[100 := E_GPIO_HIGH]}))
  = false
  /\ heap (Script.init
             [Script.R 0; Script.R 3; Script.Reply 1 "0"; Script.R (-1)]
             {[100 := E_GPIO_HIGH]}) !! 100
     = Some E_GPIO_HIGH
  /\ heap (snd (gpio_get_value 100 17
                  (Script.init
                     [Script.R 0; Script.R 3; Script.Reply 1 "0";
                      Script.R (-1)]
                     {[100 := E_GPIO_HIGH]}))) !! 100
     = Some E_GPIO_LOW.
Proof. vm_compute. repeat split. Qed.

Lemma gpio_get_value_spec_witness :
  uint16 17
  /\ 100 <> NULL
  /\ gpio_get_value 100 17
       (Script.init
          [Script.R 0; Script.R 3; Script.Reply 1 "1"; Script.R 0] ∅)
     = (true,
        State []
          [Access "/sys/class/gpio/gpio17" 0 0;
           Open "/sys/class/gpio/gpio17/value" 0 3;
           Read 3 1 1 "1";
           Close 3 0]
          {[100 := E_GPIO_HIGH]}).
Proof.
  assert (H17 : uint16 17) by (unfold uint16; lia).
  assert (Hp : 100 <> NULL) by discriminate.
  split; [exact H17|]. split; [exact Hp|].
  destruct (@gpio_get_value_spec Script.t Script.kernel 17
              (Script.init
                 [Script.R 0; Script.R 3; Script.Reply 1 "1"; Script.R 0] ∅)
              H17 100 0 [Script.R 3; Script.Reply 1 "1"; Script.R 0]
              Hp eq_refl)
    as [_ Hno].
  destruct (Hno ltac:(lia) 3 [Script.Reply 1 "1"; Script.R 0] eq_refl)
    as [_ Hok].
  destruct (Hok ltac:(lia) 1 "1"%string [Script.R 0] 0 [] eq_refl eq_refl)
    as (_ & _ & Hhigh & _).
  rewrite (Hhigh ltac:(lia) eq_refl). vm_compute. reflexivity.
Defined.

Lemma gpio_get_value_frame_witness :
  heap (snd (gpio_get_value 100 17
               (Script.init [Script.R 0; Script.R (-1)] {[100 := 7]})))
  = {[100 := 7]}
  \/ (exists (v a fd r c : Z) (got : string),
        (got = "0" /\ v = E_GPIO_LOW \/ got = "1" /\ v = E_GPIO_HIGH)
        /\ added (Script.init [Script.R 0; Script.R (-1)] {[100 := 7]})
             (snd (gpio_get_value 100 17
                     (Script.init [Script.R 0; Script.R (-1)] {[100 := 7]})))
           = [Access (Sysfs.pin_dir 17) F_OK a;
              Open (Sysfs.value 17) O_RDONLY fd;
              Read fd 1 r got;
              Close fd c]
        /\ heap (snd (gpio_get_value 100 17
                        (Script.init [Script.R 0; Script.R (-1)]
                           {[100 := 7]})))
           = <[100 := v]> {[100 := 7]}
        /\ false = negb (c =? -1)).
Proof.
  assert (H17 : uint16 17) by (unfold uint16; lia).
  exact (@gpio_get_value_frame Script.t Script.kernel 17
           (Script.init [Script.R 0; Script.R (-1)] {[100 := 7]}) H17 100
           false _ eq_refl).
Defined.

(** * Opening a pin for polling *)

Section OpenValue.
Context {W : Type} `{Kernel W}.
Variables (pin : Z) (s : state W).
Hypothesis Hpin : uint16 pin.

(** C7.  [gpio_open] makes one call: it opens [/sys/class/gpio/gpioN/value]
    with the flags [O_RDONLY | O_NONBLOCK], that is, read-only and
    non-blocking.  When the [open] succeeds it returns the descriptor, which
    is not negative; whenever the [open] fails (answers a negative number)
    it returns -1. *)
Theorem gpio_open_spec (fd : Z) (w1 : W) :
  sys_open (Sysfs.value pin) (Z.lor O_RDONLY O_NONBLOCK) (world s) = (fd, w1) ->
  snd (gpio_open pin s)
  = log s w1 [Open (Sysfs.value pin) (Z.lor O_RDONLY O_NONBLOCK) fd]
  /\ Z.land (Z.lor O_RDONLY O_NONBLOCK) O_ACCMODE = O_RDONLY
  /\ Z.land (Z.lor O_RDONLY O_NONBLOCK) O_NONBLOCK = O_NONBLOCK
  /\ (0 <= fd -> fst (gpio_open pin s) = fd /\ 0 <= fst (gpio_open pin s))
  /\ (fd < 0 -> fst (gpio_open pin s) = -1).
Proof.
  intros Hopen. rewrite (gpio_open_run pin s Hpin fd w1 Hopen). cbn [fst snd].
  repeat split.
  - destruct (Z.ltb_spec fd 0); [lia | reflexivity].
  - destruct (Z.ltb_spec fd 0); lia.
  - intros Hfd. destruct (Z.ltb_spec fd 0); [reflexivity | lia].
Qed.

End OpenValue.

(** On the tree in memory: the value file of a pin that is not exported is
    not there, and [gpio_open] returns -1; that of an exported pin is, and
    [gpio_open] returns the next free descriptor. *)
Lemma gpio_open_in_memory (w : MemFs.t) (h : gmap Z Z) (pin : Z) :
  uint16 pin ->
  fst (gpio_open pin (MemFs.init w h))
  = match MemFs.files w !! Sysfs.value pin with
    | Some _ => if MemFs.next_fd w <? 0 then -1 else MemFs.next_fd w
    | None => -1
    end.
Proof.
  intros Hpin.
  name_answer (sys_open (Sysfs.value pin) (Z.lor O_RDONLY O_NONBLOCK)
                 (world (MemFs.init w h))) Hopen.
  destruct x as [fd w1].
  rewrite (gpio_open_run pin _ Hpin fd w1 Hopen). cbn [fst].
  cbn in Hopen. unfold MemFs.fs_open in Hopen.
  destruct (MemFs.files w !! Sysfs.value pin);
    injection Hopen as <- _; reflexivity.
Qed.

Lemma gpio_open_spec_witness :
  uint16 18
  /\ fst (gpio_open 18 (MemFs.init (MemFs.board [(17, "1")]) ∅)) = -1.
Proof.
  assert (H18 : uint16 18) by (unfold uint16; lia).
  split; [exact H18|].
  assert (Hopen : sys_open (Sysfs.value 18) (Z.lor O_RDONLY O_NONBLOCK)
                    (world (MemFs.init (MemFs.board [(17, "1")]) ∅))
                  = (-1, MemFs.board [(17, "1")]))
    by (vm_compute; reflexivity).
  destruct (gpio_open_spec 18 _ H18 (-1) _ Hopen) as (_ & _ & _ & _ & Hfail).
  apply Hfail. lia.
Defined.

(** * Descriptors left open *)

Section Release.
Context {W : Type} `{Kernel W}.
Variables (pin : Z) (s : state W).
Hypothesis Hpin : uint16 pin.

Lemma held_open_close (fd c : Z) (a o e : event) :
  0 <= fd ->
  (exists path mode r, a = Access path mode r) ->
  (exists path flags, o = Open path flags fd) ->
  (exists buf n r, e = Write fd buf n r) \/ (exists n r got, e = Read fd n r got) ->
  held [a; o; e; Close fd c] = [].
Proof.
  intros Hfd (? & ? & ? & ->) (? & ? & ->) [(? & ? & ? & ->) | (? & ? & ? & ->)];
    unfold held; cbn [held_from];
    destruct (Z.ltb_spec fd 0); try lia; cbn [app List.remove];
    destruct (Z.eq_dec fd fd); congruence.
Qed.

Lemma held_failed_open (fd : Z) (a : event) (path : string) (flags : Z) :
  fd < 0 ->
  (exists p mode r, a = Access p mode r) ->
  held [a; Open path flags fd] = [].
Proof.
  intros Hfd (? & ? & ? & ->). unfold held. cbn [held_from].
  destruct (Z.ltb_spec fd 0); [reflexivity | lia].
Qed.

(** [gpio_export] leaves no descriptor open, whatever the kernel answers. *)
Lemma gpio_export_releases : held (added s (snd (gpio_export pin s))) = [].
Proof.
  name_answer (sys_access (Sysfs.pin_dir pin) F_OK (world s)) Hacc.
  destruct x as [a w1].
  destruct (gpio_export_run pin s Hpin a w1 Hacc) as [Hyes Hno].
  destruct (Z.eq_dec a 0) as [Ha|Ha].
  { rewrite (Hyes Ha). cbn [snd]. rewrite added_log. reflexivity. }
  name_answer (sys_open Sysfs.export O_WRONLY w1) Hopen.
  destruct x as [fd w2].
  destruct (Hno Ha fd w2 Hopen) as [Hfail Hok].
  destruct (Z.lt_ge_cases fd 0) as [Hfd|Hfd].
  { rewrite (Hfail Hfd). cbn [snd]. rewrite added_log.
    apply held_failed_open; eauto. }
  name_answer (sys_write fd (Fmt.d pin) (Fmt.strlen (Fmt.d pin)) w2) Hwrite.
  destruct x as [r w3].
  name_answer (sys_close fd w3) Hclose. destruct x as [c w4].
  rewrite (Hok Hfd r w3 c w4 Hwrite Hclose). cbn [snd]. rewrite added_log.
  apply held_open_close; eauto 8.
Qed.

(** So does [gpio_unexport]. *)
Lemma gpio_unexport_releases :
  held (added s (snd (gpio_unexport pin s))) = [].
Proof.
  name_answer (sys_access (Sysfs.pin_dir pin) F_OK (world s)) Hacc.
  destruct x as [a w1].
  destruct (gpio_unexport_run pin s Hpin a w1 Hacc) as [Hyes Hno].
  destruct (Z.eq_dec a (-1)) as [Ha|Ha].
  { rewrite (Hyes Ha). cbn [snd]. rewrite added_log. reflexivity. }
  name_answer (sys_open Sysfs.unexport O_WRONLY w1) Hopen.
  destruct x as [fd w2].
  destruct (Hno Ha fd w2 Hopen) as [Hfail Hok].
  destruct (Z.lt_ge_cases fd 0) as [Hfd|Hfd].
  { rewrite (Hfail Hfd). cbn [snd]. rewrite added_log.
    apply held_failed_open; eauto. }
  name_answer (sys_write fd (Fmt.d pin) (Fmt.strlen (Fmt.d pin)) w2) Hwrite.
  destruct x as [r w3].
  name_answer (sys_close fd w3) Hclose. destruct x as [c w4].
  rewrite (Hok Hfd r w3 c w4 Hwrite Hclose). cbn [snd]. rewrite added_log.
  apply held_open_close; eauto 8.
Qed.

(** So does [gpio_get_value], on every path, its [default] branch too. *)
Lemma gpio_get_value_releases (value : Z) :
  held (added s (snd (gpio_get_value value pin s))) = [].
Proof.
  destruct (Z.eq_dec value NULL) as [->|Hvalue].
  { rewrite gpio_get_value_null. cbn [snd]. rewrite added_same. reflexivity. }
  name_answer (sys_access (Sysfs.pin_dir pin) F_OK (world s)) Hacc.
  destruct x as [a w1].
  destruct (gpio_get_value_run pin s Hpin value a w1 Hvalue Hacc)
    as [Hyes Hno].
  destruct (Z.eq_dec a (-1)) as [Ha|Ha].
  { rewrite (Hyes Ha). cbn [snd]. rewrite added_log. reflexivity. }
  name_answer (sys_open (Sysfs.value pin) O_RDONLY w1) Hopen.
  destruct x as [fd w2].
  destruct (Hno Ha fd w2 Hopen) as [Hfail Hok].
  destruct (Z.lt_ge_cases fd 0) as [Hfd|Hfd].
  { rewrite (Hfail Hfd). cbn [snd]. rewrite added_log.
    apply held_failed_open; eauto. }
  name_answer (sys_read fd 1 w2) Hread. destruct x as [[r data] w3].
  name_answer (sys_close fd w3) Hclose. destruct x as [c w4].
  rewrite (Hok Hfd r data w3 c w4 Hread Hclose).
  assert (Hheld : held [Access (Sysfs.pin_dir pin) F_OK a;
                        Open (Sysfs.value pin) O_RDONLY fd;
                        Read fd 1 r (received r 1 data);
                        Close fd c] = [])
    by (apply held_open_close; eauto 8).
  destruct (r =? -1); [|destruct (Sysfs.level_of (received r 1 data))];
    cbn [snd]; rewrite ?added_store, added_log; exact Hheld.
Qed.

(** The setters release the descriptor when their argument is an
    enumerator, and keep it open when it is not: the [default] branch of
    their [switch] returns without a [close]. *)
Lemma setter_releases (op : M W bool) (path : string) (text : option string) :
  setter pin op path text ->
  match text with
  | Some _ => held (added s (snd (op s))) = []
  | None =>
      forall a w1 fd w2,
        sys_access (Sysfs.pin_dir pin) F_OK (world s) = (a, w1) ->
        a <> -1 ->
        sys_open path O_WRONLY w1 = (fd, w2) ->
        0 <= fd ->
        held (added s (snd (op s))) = [fd]
  end.
Proof.
  intros Hop.
  pose proof (fun a w1 => setter_runs pin s Hpin op path text a w1 Hop)
    as Hrun.
  destruct text as [lit|].
  - name_answer (sys_access (Sysfs.pin_dir pin) F_OK (world s)) Hacc.
    destruct x as [a w1].
    destruct (Hrun a w1 Hacc) as [Hyes Hno].
    destruct (Z.eq_dec a (-1)) as [Ha|Ha].
    { rewrite (Hyes Ha). cbn [snd]. rewrite added_log. reflexivity. }
    name_answer (sys_open path O_WRONLY w1) Hopen.
    destruct x as [fd w2].
    destruct (Hno Ha fd w2 Hopen) as [Hfail Hok].
    destruct (Z.lt_ge_cases fd 0) as [Hfd|Hfd].
    { rewrite (Hfail Hfd). cbn [snd]. rewrite added_log.
      apply held_failed_open; eauto. }
    destruct (Hok Hfd) as [_ Hwritten].
    name_answer (sys_write fd lit (Fmt.strlen lit) w2) Hwrite.
    destruct x as [r w3].
    name_answer (sys_close fd w3) Hclose. destruct x as [c w4].
    rewrite (Hwritten lit r w3 c w4 eq_refl Hwrite Hclose). cbn [snd].
    rewrite added_log. apply held_open_close; eauto 8.
  - intros a w1 fd w2 Hacc Ha Hopen Hfd.
    destruct (Hrun a w1 Hacc) as [_ Hno].
    destruct (Hno Ha fd w2 Hopen) as [_ Hok].
    destruct (Hok Hfd) as [Hdefault _].
    rewrite (Hdefault eq_refl). cbn [snd]. rewrite added_log.
    unfold held. cbn [held_from].
    destruct (Z.ltb_spec fd 0); [lia | reflexivity].
Qed.

End Release.

(** C4, at the input where it fails.  On a tree where pin 17 is exported,
    each setter called with a value that is no enumerator of its type
    returns [false] after the [open] and without a [close]: descriptor 3
    is held when the call has returned, and is still in the descriptor
    table of the kernel. *)
Theorem setters_leak_on_default :
  (fst (gpio_set_direction 17 2 (MemFs.init (MemFs.board [(17, "0")]) ∅))
   = false
   /\ trace (snd (gpio_set_direction 17 2
                    (MemFs.init (MemFs.board [(17, "0")]) ∅)))
      = [Access "/sys/class/gpio/gpio17" 0 0;
         Open "/sys/class/gpio/gpio17/direction" 1 3]
   /\ held (trace (snd (gpio_set_direction 17 2
                          (MemFs.init (MemFs.board [(17, "0")]) ∅))))
      = [3]
   /\ MemFs.fds (world (snd (gpio_set_direction 17 2
                               (MemFs.init (MemFs.board [(17, "0")]) ∅))))
        !! 3
      = Some "/sys/class/gpio/gpio17/direction"%string)
  /\ (fst (gpio_set_value 17 2 (MemFs.init (MemFs.board [(17, "0")]) ∅))
      = false
      /\ held (trace (snd (gpio_set_value 17 2
                             (MemFs.init (MemFs.board [(17, "0")]) ∅))))
         = [3])
  /\ (fst (gpio_set_edge 17 4 (MemFs.init (MemFs.board [(17, "0")]) ∅))
      = false
      /\ held (trace (snd (gpio_set_edge 17 4
                             (MemFs.init (MemFs.board [(17, "0")]) ∅))))
         = [3]).
Proof. vm_compute. repeat split. Qed.

(** * The operations in sequence, on the tree in memory *)

(** Pin 17 is exported and reads LOW.  Made an output and set HIGH, it
    reads HIGH; every call succeeds and no descriptor stays open. *)
Lemma round_trip_in_memory :
  let s0 := MemFs.init (MemFs.board [(17, "0")]) {[100 := E_GPIO_LOW]} in
  let r1 := gpio_set_direction 17 E_GPIO_OUT s0 in
  let r2 := gpio_set_value 17 E_GPIO_HIGH (snd r1) in
  let r3 := gpio_get_value 100 17 (snd r2) in
  (fst r1, fst r2, fst r3) = (true, true, true)
  /\ heap (snd r3) !! 100 = Some E_GPIO_HIGH
  /\ MemFs.files (world (snd r3)) !! Sysfs.direction 17 = Some "out"%string
  /\ held (trace (snd r3)) = [].
Proof. vm_compute. repeat split. Qed.

(** * The logs an operation can leave *)

Section Shapes.
Context {W : Type} `{Kernel W}.
Variables (pin : Z) (s : state W).
Hypothesis Hpin : uint16 pin.

Lemma log_nothing : log s (world s) [] = s.
Proof. destruct s. unfold log. cbn. rewrite app_nil_r. reflexivity. Qed.

Lemma setter_file (op : M W bool) (path : string) (text : option string) :
  setter pin op path text -> In path (files_of pin).
Proof. intros [direction | value | edge]; cbn; auto 6. Qed.

(** A setter either fails, leaving one of the short logs, or has written
    the text of its enumerator and closed. *)
Lemma setter_outcomes (op : M W bool) (path : string) (text : option string) :
  setter pin op path text ->
  (exists w evs,
     op s = (false, log s w evs) /\ call_shape pin O_WRONLY evs)
  \/ (exists w lit a fd r c,
        text = Some lit /\ a <> -1 /\ 0 <= fd
        /\ op s
           = (negb (r =? -1) && negb (c =? -1),
              log s w [Access (Sysfs.pin_dir pin) F_OK a;
                       Open path O_WRONLY fd;
                       Write fd lit (Fmt.strlen lit) r;
                       Close fd c])).
Proof.
  intros Hop. pose proof (setter_file op path text Hop) as Hfile.
  name_answer (sys_access (Sysfs.pin_dir pin) F_OK (world s)) Hacc.
  destruct x as [a w1].
  destruct (setter_runs pin s Hpin op path text a w1 Hop Hacc) as [Hyes Hno].
  destruct (Z.eq_dec a (-1)) as [Ha|Ha].
  { left. rewrite (Hyes Ha). eexists _, _. split; [reflexivity | constructor]. }
  name_answer (sys_open path O_WRONLY w1) Hopen. destruct x as [fd w2].
  destruct (Hno Ha fd w2 Hopen) as [Hfail Hok].
  destruct (Z.lt_ge_cases fd 0) as [Hfd|Hfd].
  { left. rewrite (Hfail Hfd). eexists _, _.
    split; [reflexivity | now constructor]. }
  destruct (Hok Hfd) as [Hdefault Hwritten].
  destruct text as [lit|].
  - right.
    name_answer (sys_write fd lit (Fmt.strlen lit) w2) Hwrite.
    destruct x as [r w3].
    name_answer (sys_close fd w3) Hclose. destruct x as [c w4].
    rewrite (Hwritten lit r w3 c w4 eq_refl Hwrite Hclose).
    exists w4, lit, a, fd, r, c. repeat split; assumption.
  - left. rewrite (Hdefault eq_refl). eexists _, _.
    split; [reflexivity | now constructor].
Qed.

(** Every writer leaves memory alone and a log of one of the shapes. *)
Lemma writer_shape (op : M W bool) :
  writer pin op ->
  exists b w evs, op s = (b, log s w evs) /\ call_shape pin O_WRONLY evs.
Proof.
  intros [ | | op' path text Hop].
  - name_answer (sys_access (Sysfs.pin_dir pin) F_OK (world s)) Hacc.
    destruct x as [a w1].
    destruct (gpio_export_run pin s Hpin a w1 Hacc) as [Hyes Hno].
    destruct (Z.eq_dec a 0) as [Ha|Ha].
    { rewrite (Hyes Ha). eexists _, _, _. split; [reflexivity | constructor]. }
    name_answer (sys_open Sysfs.export O_WRONLY w1) Hopen.
    destruct x as [fd w2].
    destruct (Hno Ha fd w2 Hopen) as [Hfail Hok].
    destruct (Z.lt_ge_cases fd 0) as [Hfd|Hfd].
    { rewrite (Hfail Hfd). eexists _, _, _.
      split; [reflexivity | constructor; cbn; auto]. }
    name_answer (sys_write fd (Fmt.d pin) (Fmt.strlen (Fmt.d pin)) w2) Hwrite.
    destruct x as [r w3].
    name_answer (sys_close fd w3) Hclose. destruct x as [c w4].
    rewrite (Hok Hfd r w3 c w4 Hwrite Hclose). eexists _, _, _.
    split; [reflexivity | constructor; cbn; auto].
  - name_answer (sys_access (Sysfs.pin_dir pin) F_OK (world s)) Hacc.
    destruct x as [a w1].
    destruct (gpio_unexport_run pin s Hpin a w1 Hacc) as [Hyes Hno].
    destruct (Z.eq_dec a (-1)) as [Ha|Ha].
    { rewrite (Hyes Ha). eexists _, _, _. split; [reflexivity | constructor]. }
    name_answer (sys_open Sysfs.unexport O_WRONLY w1) Hopen.
    destruct x as [fd w2].
    destruct (Hno Ha fd w2 Hopen) as [Hfail Hok].
    destruct (Z.lt_ge_cases fd 0) as [Hfd|Hfd].
    { rewrite (Hfail Hfd). eexists _, _, _.
      split; [reflexivity | constructor; cbn; auto]. }
    name_answer (sys_write fd (Fmt.d pin) (Fmt.strlen (Fmt.d pin)) w2) Hwrite.
    destruct x as [r w3].
    name_answer (sys_close fd w3) Hclose. destruct x as [c w4].
    rewrite (Hok Hfd r w3 c w4 Hwrite Hclose). eexists _, _, _.
    split; [reflexivity | constructor; cbn; auto].
  - destruct (setter_outcomes op' path text Hop)
      as [(w & evs & -> & Hshape) | (w & lit & a & fd & r & c & _ & _ & Hfd & ->)].
    + eauto.
    + eexists _, _, _. split; [reflexivity|].
      constructor; [exact (setter_file op' path text Hop) | exact Hfd].
Qed.

(** [gpio_get_value] either fails without a store, leaving one of the
    short logs or that of a read, or has read ['0'] or ['1'] and stored its
    level before the [close]. *)
Lemma gpio_get_value_outcomes (value : Z) :
  (exists w evs,
     gpio_get_value value pin s = (false, log s w evs)
     /\ call_shape pin O_RDONLY evs)
  \/ (exists w a fd r c got v,
        value <> NULL /\ a <> -1 /\ 0 <= fd /\ r <> -1
        /\ (got = "0" /\ v = E_GPIO_LOW \/ got = "1" /\ v = E_GPIO_HIGH)
        /\ gpio_get_value value pin s
           = (negb (c =? -1),
              store (log s w [Access (Sysfs.pin_dir pin) F_OK a;
                              Open (Sysfs.value pin) O_RDONLY fd;
                              Read fd 1 r got;
                              Close fd c]) value v)).
Proof.
  assert (Hfile : In (Sysfs.value pin) (files_of pin)) by (cbn; auto 6).
  destruct (Z.eq_dec value NULL) as [->|Hvalue].
  { left. exists (world s), []. rewrite log_nothing.
    split; [reflexivity | constructor]. }
  name_answer (sys_access (Sysfs.pin_dir pin) F_OK (world s)) Hacc.
  destruct x as [a w1].
  destruct (gpio_get_value_run pin s Hpin value a w1 Hvalue Hacc)
    as [Hyes Hno].
  destruct (Z.eq_dec a (-1)) as [Ha|Ha].
  { left. rewrite (Hyes Ha). eexists _, _. split; [reflexivity | constructor]. }
  name_answer (sys_open (Sysfs.value pin) O_RDONLY w1) Hopen.
  destruct x as [fd w2].
  destruct (Hno Ha fd w2 Hopen) as [Hfail Hok].
  destruct (Z.lt_ge_cases fd 0) as [Hfd|Hfd].
  { left. rewrite (Hfail Hfd). eexists _, _.
    split; [reflexivity | now constructor]. }
  name_answer (sys_read fd 1 w2) Hread. destruct x as [[r data] w3].
  name_answer (sys_close fd w3) Hclose. destruct x as [c w4].
  rewrite (Hok Hfd r data w3 c w4 Hread Hclose).
  destruct (Z.eqb_spec r (-1)) as [Hr|Hr].
  { left. eexists _, _. split; [reflexivity | now constructor]. }
  destruct (received_one r data) as [Hgot | [ch Hgot]];
    rewrite Hgot; cbn [Sysfs.level_of].
  { left. eexists _, _. split; [reflexivity | now constructor]. }
  destruct (Ascii.eqb_spec ch "0") as [Hch|_].
  { right. exists w4, a, fd, r, c, "0"%string, E_GPIO_LOW.
    rewrite Hch. repeat split; auto. }
  destruct (Ascii.eqb_spec ch "1") as [Hch|_].
  { right. exists w4, a, fd, r, c, "1"%string, E_GPIO_HIGH.
    rewrite Hch. repeat split; auto. }
  left. eexists _, _. split; [reflexivity | now constructor].
Qed.

End Shapes.

(** What every log of one of the shapes has. *)
Lemma call_shape_disciplined (pin flags : Z) (evs : list event) :
  call_shape pin flags evs ->
  disciplined evs = true
  /\ (length evs <= 4)%nat
  /\ (length (held evs) <= 1)%nat.
Proof.
  intros [ | | ? ? fd ? _ Hfd | ? fd ? _ Hfd
           | ? fd ? ? ? ? ? _ Hfd | ? fd ? ? ? ? _ Hfd ];
    unfold disciplined, held; cbn [disciplined_from held_from length];
    try (destruct (Z.ltb_spec fd 0); [lia|]);
    cbn [app existsb List.remove length]; rewrite ?Z.eqb_refl;
    try (destruct (Z.eq_dec fd fd); [|congruence]);
    cbn [orb andb disciplined_from held_from length]; repeat split;
    try lia; destruct (fd <? 0); cbn [length]; lia.
Qed.

Lemma call_shape_within (pin flags : Z) (evs : list event) :
  call_shape pin flags evs ->
  forallb (within pin) evs = true
  /\ forallb (opened_with flags) evs = true.
Proof.
  assert (Hin : forall path,
             In path (files_of pin) ->
             existsb (String.eqb path) (files_of pin) = true).
  { intros path Hpath. apply existsb_exists. exists path.
    split; [exact Hpath | apply String.eqb_refl]. }
  intros [ | | | | | ]; cbn [forallb within opened_with];
    rewrite ?String.eqb_refl, ?Z.eqb_refl, ?Hin by assumption;
    split; reflexivity.
Qed.

Lemma call_shape_writes_only (pin : Z) (evs : list event) :
  call_shape pin O_WRONLY evs -> existsb is_read evs = false.
Proof.
  intros Hshape. inversion Hshape; subst; reflexivity || discriminate.
Qed.

Lemma call_shape_reads_only (pin : Z) (evs : list event) :
  call_shape pin O_RDONLY evs -> existsb is_write evs = false.
Proof.
  intros Hshape. inversion Hshape; subst; reflexivity || discriminate.
Qed.

(** * What the operations never do *)

Section Discipline.
Context {W : Type} `{Kernel W}.
Variables (pin : Z) (s : state W).
Hypothesis Hpin : uint16 pin.

(** X3.  Whatever the kernel answers, one call of [gpio_export],
    [gpio_unexport], a setter, [gpio_get_value] or [gpio_open] makes at
    most four system calls, has at most one descriptor open at its end, and
    calls [write], [read] and [close] only on the descriptor its own
    successful [open] returned, before any [close] of it: never on a
    negative descriptor, never after the [close], never twice. *)
Theorem calls_are_disciplined :
  (forall op : M W bool,
     writer pin op ->
     disciplined (added s (snd (op s))) = true
     /\ (length (added s (snd (op s))) <= 4)%nat
     /\ (length (held (added s (snd (op s)))) <= 1)%nat)
  /\ (forall value : Z,
        disciplined (added s (snd (gpio_get_value value pin s))) = true
        /\ (length (added s (snd (gpio_get_value value pin s))) <= 4)%nat
        /\ (length (held (added s (snd (gpio_get_value value pin s)))) <= 1)%nat)
  /\ (disciplined (added s (snd (gpio_open pin s))) = true
      /\ (length (added s (snd (gpio_open pin s))) <= 4)%nat
      /\ (length (held (added s (snd (gpio_open pin s)))) <= 1)%nat).
Proof.
  split; [|split].
  - intros op Hop.
    destruct (writer_shape pin s Hpin op Hop) as (b & w & evs & -> & Hshape).
    cbn [snd]. rewrite added_log.
    exact (call_shape_disciplined pin O_WRONLY evs Hshape).
  - intros value.
    destruct (gpio_get_value_outcomes pin s Hpin value)
      as [(w & evs & -> & Hshape)
         | (w & a & fd & r & c & got & v & _ & _ & Hfd & _ & _ & ->)];
      cbn [snd]; rewrite ?added_store, added_log.
    + exact (call_shape_disciplined pin O_RDONLY evs Hshape).
    + apply (call_shape_disciplined pin O_RDONLY). constructor; cbn; auto 6.
  - name_answer (sys_open (Sysfs.value pin) (Z.lor O_RDONLY O_NONBLOCK)
                   (world s)) Hopen.
    destruct x as [fd w1].
    rewrite (gpio_open_run pin s Hpin fd w1 Hopen). cbn [snd].
    rewrite added_log. unfold disciplined, held.
    cbn [disciplined_from held_from length].
    destruct (fd <? 0); cbn [length]; repeat split; reflexivity || lia.
Qed.

(** X8.  An operation on pin [N] stays with pin [N] and with its own
    direction of transfer.  The writers ([gpio_export], [gpio_unexport] and
    the setters) test no path but [/sys/class/gpio/gpioN], open no file but
    [export], [unexport] and the three files of the pin, open it
    write-only, never call [read], and leave memory as it was.
    [gpio_get_value] tests and opens within the same set, opens read-only,
    and never calls [write]. *)
Theorem operations_stay_with_their_pin :
  (forall op : M W bool,
     writer pin op ->
     forallb (within pin) (added s (snd (op s))) = true
     /\ forallb (opened_with O_WRONLY) (added s (snd (op s))) = true
     /\ existsb is_read (added s (snd (op s))) = false
     /\ heap (snd (op s)) = heap s)
  /\ (forall value : Z,
        forallb (within pin) (added s (snd (gpio_get_value value pin s)))
        = true
        /\ forallb (opened_with O_RDONLY)
             (added s (snd (gpio_get_value value pin s)))
           = true
        /\ existsb is_write (added s (snd (gpio_get_value value pin s)))
           = false).
Proof.
  split.
  - intros op Hop.
    destruct (writer_shape pin s Hpin op Hop) as (b & w & evs & -> & Hshape).
    cbn [snd]. rewrite added_log.
    destruct (call_shape_within pin O_WRONLY evs Hshape) as [Hin Hmode].
    pose proof (call_shape_writes_only pin evs Hshape). auto.
  - intros value.
    assert (Hall : forall evs,
               call_shape pin O_RDONLY evs ->
               forallb (within pin) evs = true
               /\ forallb (opened_with O_RDONLY) evs = true
               /\ existsb is_write evs = false).
    { intros evs Hshape.
      destruct (call_shape_within pin O_RDONLY evs Hshape) as [Hin Hmode].
      pose proof (call_shape_reads_only pin evs Hshape). auto. }
    destruct (gpio_get_value_outcomes pin s Hpin value)
      as [(w & evs & -> & Hshape)
         | (w & a & fd & r & c & got & v & _ & _ & Hfd & _ & _ & ->)];
      cbn [snd]; rewrite ?added_store, added_log.
    + exact (Hall evs Hshape).
    + apply Hall. constructor; cbn; auto 6.
Qed.

(** X4.  [gpio_export], [gpio_unexport] and [gpio_get_value] leave no
    descriptor open, on any path and whatever the kernel answers; a setter
    leaves none open when its argument is an enumerator of its type. *)
Theorem descriptors_released :
  held (added s (snd (gpio_export pin s))) = []
  /\ held (added s (snd (gpio_unexport pin s))) = []
  /\ (forall value : Z,
        held (added s (snd (gpio_get_value value pin s))) = [])
  /\ (forall (op : M W bool) (path lit : string),
        setter pin op path (Some lit) ->
        held (added s (snd (op s))) = []).
Proof.
  split; [exact (gpio_export_releases pin s Hpin)|].
  split; [exact (gpio_unexport_releases pin s Hpin)|].
  split; [exact (gpio_get_value_releases pin s Hpin)|].
  intros op path lit Hop.
  exact (setter_releases pin s Hpin op path (Some lit) Hop).
Qed.

(** X5.  [gpio_open] hands the descriptor it opened to its caller: when it
    returns -1 nothing is held; otherwise what it returns is the one
    descriptor held, and [gpio_close] on it makes the one [close] that
    releases it, returning [true] exactly when that [close] answers 0. *)
Theorem open_then_close :
  (fst (gpio_open pin s) = -1
   /\ held (added s (snd (gpio_open pin s))) = [])
  \/ (0 <= fst (gpio_open pin s)
      /\ held (added s (snd (gpio_open pin s))) = [fst (gpio_open pin s)]
      /\ exists (c : Z) (w : W),
           gpio_close (fst (gpio_open pin s)) (snd (gpio_open pin s))
           = (c =? 0,
              log s w [Open (Sysfs.value pin) (Z.lor O_RDONLY O_NONBLOCK)
                         (fst (gpio_open pin s));
                       Close (fst (gpio_open pin s)) c])
           /\ held (added s
                      (snd (gpio_close (fst (gpio_open pin s))
                              (snd (gpio_open pin s)))))
              = []).
Proof.
  name_answer (sys_open (Sysfs.value pin) (Z.lor O_RDONLY O_NONBLOCK)
                 (world s)) Hopen.
  destruct x as [fd w1].
  rewrite (gpio_open_run pin s Hpin fd w1 Hopen). cbn [fst snd].
  rewrite added_log. unfold held at 1 2. cbn [held_from].
  destruct (Z.ltb_spec fd 0) as [Hfd|Hfd].
  - left. split; reflexivity.
  - right. split; [exact Hfd|]. split; [reflexivity|].
    name_answer (sys_close fd w1) Hclose. destruct x as [c w2].
    exists c, w2.
    rewrite (gpio_close_run
               (log s w1 [Open (Sysfs.value pin)
                            (Z.lor O_RDONLY O_NONBLOCK) fd])
               fd c w2 Hclose).
    rewrite log_log. cbn [app snd]. split; [reflexivity|].
    rewrite added_log. unfold held. cbn [held_from].
    destruct (Z.ltb_spec fd 0); [lia|]. cbn [app List.remove].
    destruct (Z.eq_dec fd fd); congruence.
Qed.

End Discipline.

(** * What a success means *)

Section Success.
Context {W : Type} `{Kernel W}.
Variables (pin : Z) (s : state W).
Hypothesis Hpin : uint16 pin.

(** X2.  When [gpio_set_direction], [gpio_set_value] or [gpio_set_edge]
    returns [true], its argument is an enumerator of its type and it has
    made exactly four calls: the [access] of [/sys/class/gpio/gpioN],
    answered other than -1; the [open] of the file of the pin, write-only,
    answered with a descriptor; one [write] on it of the text of the
    enumerator, with the length of the text as count, answered other than
    -1; and the [close] of it, answered other than -1.  Memory is as it
    was. *)
Theorem setter_success (op : M W bool) (path : string) (text : option string) :
  setter pin op path text ->
  fst (op s) = true ->
  exists (w : W) (lit : string) (a fd r c : Z),
    text = Some lit
    /\ a <> -1 /\ 0 <= fd /\ r <> -1 /\ c <> -1
    /\ snd (op s)
       = log s w [Access (Sysfs.pin_dir pin) F_OK a;
                  Open path O_WRONLY fd;
                  Write fd lit (Fmt.strlen lit) r;
                  Close fd c].
Proof.
  intros Hop Htrue.
  destruct (setter_outcomes pin s Hpin op path text Hop)
    as [(w & evs & Hrun & _)
       | (w & lit & a & fd & r & c & Htext & Ha & Hfd & Hrun)];
    rewrite Hrun in Htrue |- *; cbn [fst snd] in *; [discriminate|].
  apply andb_true_iff in Htrue. destruct Htrue as [Hr Hc].
  apply negb_true_iff, Z.eqb_neq in Hr, Hc.
  exists w, lit, a, fd, r, c. repeat split; assumption.
Qed.

(** X7.  When [gpio_get_value] returns [true], its output pointer is not
    null and the object it designates holds [E_GPIO_LOW] or [E_GPIO_HIGH]:
    the level of the one byte, ['0'] or ['1'], that its one [read] of one
    byte delivered, from [gpioN/value] opened read-only; and the descriptor
    has been closed. *)
Theorem gpio_get_value_success (value : Z) :
  fst (gpio_get_value value pin s) = true ->
  value <> NULL
  /\ exists (w : W) (a fd r c v : Z) (got : string),
       a <> -1 /\ 0 <= fd /\ r <> -1 /\ c <> -1
       /\ (got = "0" /\ v = E_GPIO_LOW \/ got = "1" /\ v = E_GPIO_HIGH)
       /\ added s (snd (gpio_get_value value pin s))
          = [Access (Sysfs.pin_dir pin) F_OK a;
             Open (Sysfs.value pin) O_RDONLY fd;
             Read fd 1 r got;
             Close fd c]
       /\ heap (snd (gpio_get_value value pin s)) = <[value := v]> (heap s)
       /\ heap (snd (gpio_get_value value pin s)) !! value = Some v.
Proof.
  intros Htrue.
  destruct (gpio_get_value_outcomes pin s Hpin value)
    as [(w & evs & Hrun & _)
       | (w & a & fd & r & c & got & v & Hvalue & Ha & Hfd & Hr & Hgot & Hrun)];
    rewrite Hrun in Htrue |- *; cbn [fst snd] in *; [discriminate|].
  apply negb_true_iff, Z.eqb_neq in Htrue.
  split; [exact Hvalue|].
  exists w, a, fd, r, c, v, got. rewrite added_store, added_log.
  repeat split; try assumption.
  unfold store. cbn [heap]. apply lookup_insert_eq.
Qed.

End Success.

Section RoundTrip.
Context {W : Type} `{Kernel W}.
Variable pin : Z.
Hypothesis Hpin : uint16 pin.

(** X6.  [gpio_set_value] and [gpio_get_value] agree on how a level is
    written down.  If [gpio_set_value] has succeeded with level [level],
    and a [gpio_get_value] that succeeds reads as its one byte the first
    byte of what was written, then the level it stores is [level]. *)
Theorem value_round_trip (level value : Z) (s1 s2 : state W) :
  fst (gpio_set_value pin level s1) = true ->
  fst (gpio_get_value value pin s2) = true ->
  read_back (added s2 (snd (gpio_get_value value pin s2)))
  = map (substring 0 1)
        (written (added s1 (snd (gpio_set_value pin level s1)))) ->
  heap (snd (gpio_get_value value pin s2)) !! value = Some level.
Proof.
  intros Hset Hget Hsame.
  destruct (setter_outcomes pin s1 Hpin _ _ _ (set_value pin level))
    as [(w & evs & Hrun & _)
       | (w & lit & a & fd & r & c & Htext & _ & _ & Hrun)];
    rewrite Hrun in Hset, Hsame; cbn [fst snd] in *; [discriminate|].
  clear Hrun.
  destruct (gpio_get_value_outcomes pin s2 Hpin value)
    as [(w' & evs & Hrun & _)
       | (w' & a' & fd' & r' & c' & got & v & _ & _ & _ & _ & Hgot & Hrun)];
    rewrite Hrun in Hget, Hsame |- *; cbn [fst snd] in *; [discriminate|].
  rewrite added_store, !added_log in Hsame. cbn in Hsame.
  injection Hsame as Hsame.
  unfold store. cbn [heap]. rewrite lookup_insert_eq. f_equal.
  unfold Sysfs.level_text in Htext.
  destruct (Z.eqb_spec level E_GPIO_LOW) as [->|_].
  { injection Htext as <-. cbn in Hsame.
    destruct Hgot as [[_ ->] | [-> _]]; [reflexivity | discriminate]. }
  destruct (Z.eqb_spec level E_GPIO_HIGH) as [->|_]; [|discriminate].
  injection Htext as <-. cbn in Hsame.
  destruct Hgot as [[-> _] | [_ ->]]; [discriminate | reflexivity].
Qed.

End RoundTrip.

(** * One pin, one path *)

Lemma append_cancel_r (t : string) : forall s1 s2 : string,
  s1 +:+ t = s2 +:+ t -> s1 = s2.
Proof.
  induction s1 as [|c1 s1 IH]; intros [|c2 s2] Heq.
  - reflexivity.
  - apply (f_equal String.length) in Heq.
    rewrite !length_append in Heq. cbn [String.length] in Heq. lia.
  - apply (f_equal String.length) in Heq.
    rewrite !length_append in Heq. cbn [String.length] in Heq. lia.
  - change (String c1 (s1 +:+ t) = String c2 (s2 +:+ t)) in Heq.
    injection Heq as -> Heq. f_equal. exact (IH s2 Heq).
Qed.

Lemma append_cancel_l (t : string) : forall s1 s2 : string,
  t +:+ s1 = t +:+ s2 -> s1 = s2.
Proof.
  induction t as [|c t IH]; intros s1 s2 Heq.
  - exact Heq.
  - change (String c (t +:+ s1) = String c (t +:+ s2)) in Heq.
    injection Heq as Heq. exact (IH s1 s2 Heq).
Qed.

Lemma pin_dir_injective (n m : Z) :
  uint16 n -> uint16 m -> Sysfs.pin_dir n = Sysfs.pin_dir m -> n = m.
Proof.
  intros Hn Hm Heq. unfold Sysfs.pin_dir in Heq.
  assert (Hd : Fmt.d n = Fmt.d m) by exact (append_cancel_l _ _ _ Heq).
  unfold uint16 in Hn, Hm.
  rewrite <- (decimal_d n), <- (decimal_d m), Hd;
    change (10 ^ 10) with 10000000000; try lia.
Qed.

(** X1.  Two pin numbers never share a path: for [uint16_t] pin numbers,
    the directory, direction, value and edge paths that [gpio.c] formats
    into its command buffer are different for different pins, and so is
    the number written to [export] and [unexport]. *)
Theorem paths_are_injective (n m : Z) :
  uint16 n -> uint16 m ->
  gpio_path n = gpio_path m
  \/ direction_path n = direction_path m
  \/ value_path n = value_path m
  \/ edge_path n = edge_path m
  \/ fst (Fmt.snprintf CMD_BUF_MAX_LEN (Fmt.d n))
     = fst (Fmt.snprintf CMD_BUF_MAX_LEN (Fmt.d m)) ->
  n = m.
Proof.
  intros Hn Hm Heq.
  rewrite !(gpio_path_eq _ Hn), !(gpio_path_eq _ Hm),
    !(direction_path_eq _ Hn), !(direction_path_eq _ Hm),
    !(value_path_eq _ Hn), !(value_path_eq _ Hm),
    !(edge_path_eq _ Hn), !(edge_path_eq _ Hm),
    !(pin_buf_eq _ Hn), !(pin_buf_eq _ Hm) in Heq.
  cbn [fst] in Heq.
  destruct Heq as [Heq | [Heq | [Heq | [Heq | Heq]]]].
  - exact (pin_dir_injective n m Hn Hm Heq).
  - apply append_cancel_r in Heq. exact (pin_dir_injective n m Hn Hm Heq).
  - apply append_cancel_r in Heq. exact (pin_dir_injective n m Hn Hm Heq).
  - apply append_cancel_r in Heq. exact (pin_dir_injective n m Hn Hm Heq).
  - unfold uint16 in Hn, Hm.
    rewrite <- (decimal_d n), <- (decimal_d m), Heq;
      change (10 ^ 10) with 10000000000; try lia.
Qed.

(** * The properties above at work *)

Lemma calls_are_disciplined_witness :
  uint16 17
  /\ disciplined
       (added (Script.init [Script.R 0; Script.R 3; Script.R 4; Script.R 0] ∅)
          (snd (gpio_set_edge 17 E_GPIO_BOTH
                  (Script.init
                     [Script.R 0; Script.R 3; Script.R 4; Script.R 0] ∅))))
     = true.
Proof.
  assert (H17 : uint16 17) by (unfold uint16; lia).
  split; [exact H17|].
  exact (proj1 (proj1 (@calls_are_disciplined Script.t Script.kernel 17
                         (Script.init
                            [Script.R 0; Script.R 3; Script.R 4; Script.R 0] ∅)
                         H17)
                  (gpio_set_edge 17 E_GPIO_BOTH)
                  (writer_setter 17 _ _ _ (set_edge 17 E_GPIO_BOTH)))).
Defined.

Lemma operations_stay_with_their_pin_witness :
  uint16 17
  /\ existsb is_write
       (added (Script.init
                 [Script.R 0; Script.R 3; Script.Reply 1 "0"; Script.R 0] ∅)
          (snd (gpio_get_value 100 17
                  (Script.init
                     [Script.R 0; Script.R 3; Script.Reply 1 "0"; Script.R 0]
                     ∅))))
     = false.
Proof.
  assert (H17 : uint16 17) by (unfold uint16; lia).
  split; [exact H17|].
  exact (proj2 (proj2 (proj2 (@operations_stay_with_their_pin
                                Script.t Script.kernel 17
                                (Script.init
                                   [Script.R 0; Script.R 3;
                                    Script.Reply 1 "0"; Script.R 0] ∅)
                                H17)
                         100))).
Defined.

Lemma descriptors_released_witness :
  uint16 17
  /\ held (added (Script.init [Script.R 0; Script.R 3; Script.R 1] ∅)
             (snd (gpio_unexport 17
                     (Script.init [Script.R 0; Script.R 3; Script.R 1] ∅))))
     = [].
Proof.
  assert (H17 : uint16 17) by (unfold uint16; lia).
  split; [exact H17|].
  exact (proj1 (proj2 (@descriptors_released Script.t Script.kernel 17
                         (Script.init [Script.R 0; Script.R 3; Script.R 1] ∅)
                         H17))).
Defined.

Lemma open_then_close_witness :
  uint16 17
  /\ held (added (Script.init [Script.R 3; Script.R 0] ∅)
             (snd (gpio_close 3
                     (snd (gpio_open 17
                             (Script.init [Script.R 3; Script.R 0] ∅))))))
     = [].
Proof.
  assert (H17 : uint16 17) by (unfold uint16; lia).
  split; [exact H17|].
  destruct (@open_then_close Script.t Script.kernel 17
              (Script.init [Script.R 3; Script.R 0] ∅) H17)
    as [[Hfailed _] | (_ & _ & c & w & _ & Hreleased)].
  - vm_compute in Hfailed. discriminate Hfailed.
  - exact Hreleased.
Defined.

Lemma setter_success_witness :
  uint16 17
  /\ fst (gpio_set_direction 17 E_GPIO_IN
            (Script.init [Script.R 0; Script.R 3; Script.R 2; Script.R 0] ∅))
     = true
  /\ exists (w : Script.t) (lit : string) (a fd r c : Z),
       Sysfs.direction_text E_GPIO_IN = Some lit
       /\ a <> -1 /\ 0 <= fd /\ r <> -1 /\ c <> -1
       /\ snd (gpio_set_direction 17 E_GPIO_IN
                 (Script.init
                    [Script.R 0; Script.R 3; Script.R 2; Script.R 0] ∅))
          = log (Script.init
                   [Script.R 0; Script.R 3; Script.R 2; Script.R 0] ∅)
              w [Access (Sysfs.pin_dir 17) F_OK a;
                 Open (Sysfs.direction 17) O_WRONLY fd;
                 Write fd lit (Fmt.strlen lit) r;
                 Close fd c].
Proof.
  assert (H17 : uint16 17) by (unfold uint16; lia).
  split; [exact H17|]. split; [reflexivity|].
  exact (@setter_success Script.t Script.kernel 17
           (Script.init [Script.R 0; Script.R 3; Script.R 2; Script.R 0] ∅)
           H17 _ _ _ (set_direction 17 E_GPIO_IN) eq_refl).
Defined.

Lemma gpio_get_value_success_witness :
  uint16 17
  /\ fst (gpio_get_value 100 17
            (Script.init
               [Script.R 0; Script.R 3; Script.Reply 1 "0"; Script.R 0]
               {[100 := E_GPIO_HIGH]}))
     = true
  /\ 100 <> NULL.
Proof.
  assert (H17 : uint16 17) by (unfold uint16; lia).
  split; [exact H17|]. split; [reflexivity|].
  exact (proj1 (@gpio_get_value_success Script.t Script.kernel 17
                  (Script.init
                     [Script.R 0; Script.R 3; Script.Reply 1 "0"; Script.R 0]
                     {[100 := E_GPIO_HIGH]})
                  H17 100 eq_refl)).
Defined.

Lemma value_round_trip_witness :
  uint16 17
  /\ heap (snd (gpio_get_value 100 17
                  (snd (gpio_set_value 17 E_GPIO_HIGH
                          (MemFs.init (MemFs.board [(17, "0")]) ∅)))))
       !! 100
     = Some E_GPIO_HIGH.
Proof.
  assert (H17 : uint16 17) by (unfold uint16; lia).
  split; [exact H17|].
  apply (@value_round_trip MemFs.t MemFs.kernel 17 H17 E_GPIO_HIGH 100
           (MemFs.init (MemFs.board [(17, "0")]) ∅)).
  - vm_compute. reflexivity.
  - vm_compute. reflexivity.
  - vm_compute. reflexivity.
Defined.

Lemma paths_are_injective_witness :
  uint16 65535
  /\ value_path 65535 = value_path 65535
  /\ 65535 = 65535.
Proof.
  assert (H16 : uint16 65535) by (unfold uint16; lia).
  split; [exact H16|]. split; [reflexivity|].
  exact (paths_are_injective 65535 65535 H16 H16
           (or_intror (or_intror (or_introl eq_refl)))).
Defined.
